(** * heos-tui: a shallow embedding of the device control core

    The AVR line decoder ([src/heos/avr.rs]), the HEOS command encoder and
    response envelope ([src/heos/protocol.rs]), the reconciler of [App]
    ([src/app.rs]) and SSDP discovery ([src/heos/discovery.rs]).

    Rust [String]s and [&str]s are modelled as [String.string]: the protocol
    lines handled here are ASCII, so one [ascii] is one byte and byte
    lengths and byte slices coincide with [String.length] and
    [String.substring]. Machine integers ([u8], [i64], [usize]) are [Z] or
    [nat] with their ranges enforced where the source parses them. *)

From Stdlib Require Import ZArith String Ascii List Bool Lia.
From Stdlib Require Import DecimalString.
Import ListNotations.

Local Open Scope list_scope.
Local Open Scope string_scope.

(** ** String helpers (the parts of [str] the code uses) *)

Module Str.

(** [s.starts_with(p)] *)
Definition starts_with (p s : string) : bool := String.prefix p s.

(** [&s[n..]], for [n] not past the end *)
Fixpoint drop (n : nat) (s : string) : string :=
  match n, s with
  | O, _ => s
  | S _, EmptyString => EmptyString
  | S n', String _ s' => drop n' s'
  end.

(** [&s[..n]], for [n] not past the end *)
Fixpoint take (n : nat) (s : string) : string :=
  match n, s with
  | O, _ => EmptyString
  | S _, EmptyString => EmptyString
  | S n', String c s' => String c (take n' s')
  end.

(** [s.contains(pat)]: [pat] occurs at some position of [s]. *)
Fixpoint contains (pat s : string) : bool :=
  String.prefix pat s ||
  match s with
  | EmptyString => false
  | String _ s' => contains pat s'
  end.

(** [s.split(c)]: the segments between occurrences of [c]; never empty. *)
Fixpoint split (c : ascii) (s : string) : list string :=
  match s with
  | EmptyString => [EmptyString]
  | String x s' =>
      if Ascii.eqb x c then EmptyString :: split c s'
      else match split c s' with
           | h :: t => String x h :: t
           | [] => [String x EmptyString]
           end
  end.

(** [s.split_once(c)]: cut at the first occurrence of [c]. *)
Fixpoint split_once (c : ascii) (s : string) : option (string * string) :=
  match s with
  | EmptyString => None
  | String x s' =>
      if Ascii.eqb x c then Some (EmptyString, s')
      else match split_once c s' with
           | Some (a, b) => Some (String x a, b)
           | None => None
           end
  end.

(** [parts.join(sep)] *)
Definition join (sep : string) (parts : list string) : string :=
  String.concat sep parts.

(** ASCII case mapping of [to_lowercase] / [to_uppercase]. *)
Definition lower_char (c : ascii) : ascii :=
  let n := nat_of_ascii c in
  if (65 <=? n)%nat && (n <=? 90)%nat then ascii_of_nat (n + 32) else c.

Definition upper_char (c : ascii) : ascii :=
  let n := nat_of_ascii c in
  if (97 <=? n)%nat && (n <=? 122)%nat then ascii_of_nat (n - 32) else c.

Fixpoint map_chars (f : ascii -> ascii) (s : string) : string :=
  match s with
  | EmptyString => EmptyString
  | String c s' => String (f c) (map_chars f s')
  end.

Definition to_lowercase := map_chars lower_char.
Definition to_uppercase := map_chars upper_char.

(** [c.is_whitespace()] on ASCII: space, \t, \n, \x0B, \x0C, \r *)
Definition is_ws (c : ascii) : bool :=
  let n := nat_of_ascii c in
  (n =? 32)%nat || ((9 <=? n)%nat && (n <=? 13)%nat).

Fixpoint trim_start (s : string) : string :=
  match s with
  | EmptyString => EmptyString
  | String c s' => if is_ws c then trim_start s' else s
  end.

Definition rev_str (s : string) : string :=
  string_of_list_ascii (rev (list_ascii_of_string s)).

(** [s.trim()] *)
Definition trim (s : string) : string :=
  rev_str (trim_start (rev_str (trim_start s))).

(** [s.lines()]: split at \n, dropping one trailing \r per line and a
    final empty line. *)
Definition strip_cr (l : string) : string :=
  let r := list_ascii_of_string l in
  match rev r with
  | c :: r' => if Ascii.eqb c "013"%char then string_of_list_ascii (rev r') else l
  | [] => l
  end.

Definition lines (s : string) : list string :=
  let segs := split "010"%char s in
  let segs := match rev segs with
              | EmptyString :: r => rev r
              | _ => segs
              end in
  map strip_cr segs.

End Str.

(** ** Integer parsing: [<u8 as FromStr>] and [<i64 as FromStr>]

    [core::num::from_str_radix] at radix 10: an empty string is an error;
    a lone sign is an error; a leading [+] is accepted, a leading [-] only
    for signed types; every remaining character must be a decimal digit,
    and the value must fit in the type. *)

Definition digit_of (c : ascii) : option Z :=
  let n := nat_of_ascii c in
  if (48 <=? n)%nat && (n <=? 57)%nat then Some (Z.of_nat n - 48)%Z else None.

(** Accumulate the digits of [s] onto [acc], failing past [bound]. *)
Fixpoint digits_value (bound acc : Z) (s : string) : option Z :=
  match s with
  | EmptyString => Some acc
  | String c s' =>
      match digit_of c with
      | Some d =>
          let acc' := (acc * 10 + d)%Z in
          if (bound <? acc')%Z then None else digits_value bound acc' s'
      | None => None
      end
  end.

Definition parse_u8 (s : string) : option Z :=
  match s with
  | EmptyString => None
  | String "+" EmptyString => None
  | String "-" EmptyString => None
  | String "+" rest => digits_value 255 0 rest
  | _ => digits_value 255 0 s
  end.

Definition parse_i64 (s : string) : option Z :=
  match s with
  | EmptyString => None
  | String "+" EmptyString => None
  | String "-" EmptyString => None
  | String "+" rest => digits_value (2^63 - 1) 0 rest
  | String "-" rest => option_map Z.opp (digits_value (2^63) 0 rest)
  | _ => digits_value (2^63 - 1) 0 s
  end.

(** ** Codec B: the AVR line decoder ([AvrClient::handle_response]) *)

Inductive AvrEvent :=
| AvrConnected
| AvrDisconnected
| MasterVolume (vol : Z)
| Mute (muted : bool)
| Power (on : bool)
| SurroundMode (mode : string)
| InputSource (input : string)
| AvrError (msg : string)
| Response (line : string).

(** The event sent for one trimmed response line, [None] when dropped. *)
Definition avr_handle_response (response : string) : option AvrEvent :=
  if Str.starts_with "MV" response && negb (Str.starts_with "MVMAX" response) then
    let vol_str := Str.drop 2 response in
    match parse_u8 vol_str with
    | Some vol => Some (MasterVolume vol)
    | None =>
        if (String.length vol_str =? 3)%nat then
          match parse_u8 (Str.take 2 vol_str) with
          | Some vol => Some (MasterVolume vol)
          | None => None
          end
        else None
    end
  else if Str.starts_with "MU" response then
    let rest := Str.drop 2 response in
    if String.eqb rest "ON" then Some (Mute true)
    else if String.eqb rest "OFF" then Some (Mute false)
    else None
  else if Str.starts_with "PW" response then
    let rest := Str.drop 2 response in
    if String.eqb rest "ON" then Some (Power true)
    else if String.eqb rest "STANDBY" || String.eqb rest "OFF" then Some (Power false)
    else None
  else if Str.starts_with "SI" response then
    Some (InputSource (Str.drop 2 response))
  else if Str.starts_with "MS" response then
    Some (SurroundMode (Str.drop 2 response))
  else Some (Response response).


(** ** Codec A: commands ([HeosCommand] in [protocol.rs]) *)

Record HeosCommand := mkHeosCommand {
  group : string;
  command : string;
  params : list (string * string)
}.

(** [HeosCommand::to_string] *)
Definition heos_command_to_string (c : HeosCommand) : string :=
  let cmd := "heos://" ++ group c ++ "/" ++ command c in
  let cmd :=
    match params c with
    | [] => cmd
    | ps => cmd ++ "?" ++ Str.join "&" (map (fun '(k, v) => k ++ "=" ++ v) ps)
    end in
  cmd ++ String "013" (String "010" EmptyString).

(** [i64::to_string] *)
Definition z_to_string (z : Z) : string := NilEmpty.string_of_int (Z.to_int z).

Module Protocol.

Definition new (g c : string) : HeosCommand := mkHeosCommand g c [].

(** [HeosCommand::param]: push at the end *)
Definition param (k v : string) (c : HeosCommand) : HeosCommand :=
  mkHeosCommand (group c) (command c) (params c ++ [(k, v)]).

Definition get_players := new "player" "get_players".
Definition get_play_state (pid : Z) :=
  param "pid" (z_to_string pid) (new "player" "get_play_state").
Definition get_now_playing_media (pid : Z) :=
  param "pid" (z_to_string pid) (new "player" "get_now_playing_media").
Definition get_volume (pid : Z) :=
  param "pid" (z_to_string pid) (new "player" "get_volume").
Definition set_volume (pid level : Z) :=
  param "level" (z_to_string level) (param "pid" (z_to_string pid) (new "player" "set_volume")).
Definition get_mute (pid : Z) :=
  param "pid" (z_to_string pid) (new "player" "get_mute").
Definition get_play_mode (pid : Z) :=
  param "pid" (z_to_string pid) (new "player" "get_play_mode").
Definition browse_source_container (sid : Z) (cid : string) :=
  param "cid" cid (param "sid" (z_to_string sid) (new "browse" "browse")).
Definition set_play_state (pid : Z) (state : string) :=
  param "state" state (param "pid" (z_to_string pid) (new "player" "set_play_state")).
Definition volume_up (pid step : Z) :=
  param "step" (z_to_string step) (param "pid" (z_to_string pid) (new "player" "volume_up")).
Definition volume_down (pid step : Z) :=
  param "step" (z_to_string step) (param "pid" (z_to_string pid) (new "player" "volume_down")).
Definition toggle_mute (pid : Z) :=
  param "pid" (z_to_string pid) (new "player" "toggle_mute").
Definition set_play_mode (pid : Z) (repeat shuffle : string) :=
  param "shuffle" shuffle
    (param "repeat" repeat (param "pid" (z_to_string pid) (new "player" "set_play_mode"))).
(** [get_queue(pid, start, end)]: the range is [format!("{},{}", start, end)]. *)
Definition get_queue (pid start end_ : Z) :=
  param "range" (z_to_string start ++ "," ++ z_to_string end_)
    (param "pid" (z_to_string pid) (new "player" "get_queue")).
Definition play_queue (pid qid : Z) :=
  param "qid" (z_to_string qid) (param "pid" (z_to_string pid) (new "player" "play_queue")).
Definition play_next (pid : Z) :=
  param "pid" (z_to_string pid) (new "player" "play_next").
Definition play_previous (pid : Z) :=
  param "pid" (z_to_string pid) (new "player" "play_previous").
Definition play_input (pid : Z) (input : string) :=
  param "input" input (param "pid" (z_to_string pid) (new "browse" "play_input")).

End Protocol.

(** ** Codec A: the response envelope *)

(** [serde_json::Value]; numbers are integral here. *)
#[warnings="-register-all"]
Inductive Value :=
| JNull
| JBool (b : bool)
| JNumber (n : Z)
| JString (s : string)
| JArray (vs : list Value)
| JObject (fs : list (string * Value)).

Record HeosHeader := mkHeosHeader {
  hdr_command : string;     (* [heos.command] *)
  hdr_result : option string;   (* [heos.result] *)
  hdr_message : string      (* [heos.message] *)
}.

Record HeosResponse := mkHeosResponse {
  heos : HeosHeader;
  payload : Value;
  options : Value
}.

Definition is_success (r : HeosResponse) : bool :=
  match hdr_result (heos r) with
  | Some res => String.eqb res "success"
  | None => false
  end.

Definition is_event (r : HeosResponse) : bool :=
  match hdr_result (heos r) with
  | None => true
  | Some _ => false
  end.

(** A [HashMap<String, String>]: newest binding first, so a later
    [insert] of a key shadows earlier ones and [get] finds the newest. *)
Definition HashMap := list (string * string).

Definition hm_insert (k v : string) (m : HashMap) : HashMap :=
  (k, v) :: filter (fun p => negb (String.eqb (fst p) k)) m.

Fixpoint hm_get (k : string) (m : HashMap) : option string :=
  match m with
  | [] => None
  | (k', v) :: m' => if String.eqb k' k then Some v else hm_get k m'
  end.

(** [parse_message_string] *)
Definition parse_message_string (message : string) : HashMap :=
  if String.eqb message "" then []
  else fold_left
         (fun map pair =>
            match Str.split_once "=" pair with
            | Some (key, value) => hm_insert key value map
            | None => map
            end)
         (Str.split "&" message) [].

Definition parse_message (r : HeosResponse) : HashMap :=
  parse_message_string (hdr_message (heos r)).

(** [serde::Deserialize] as [serde_json::from_value] sees it. *)
Class Deserialize (T : Type) := from_value : Value -> option T.

Fixpoint from_values {T} `{Deserialize T} (vs : list Value) : option (list T) :=
  match vs with
  | [] => Some []
  | v :: vs' =>
      match from_value v, from_values vs' with
      | Some x, Some xs => Some (x :: xs)
      | _, _ => None
      end
  end.

(** [Vec<T>] is read from a JSON array, element by element. *)
#[global] Instance deserialize_vec {T} `{Deserialize T} : Deserialize (list T) :=
  fun v => match v with JArray vs => from_values vs | _ => None end.

Definition get_payload_array (T : Type) `{Deserialize T} (r : HeosResponse) : option (list T) :=
  from_value (payload r).

Definition get_payload_object (T : Type) `{Deserialize T} (r : HeosResponse) : option T :=
  from_value (payload r).

(** ** The data model ([types.rs]) *)

(** Option notation for the field-by-field decoders below. *)
Notation "'let?' x := a 'in' b" :=
  (match a with Some x => b | None => None end)
  (at level 200, x name, a at level 100, b at level 200).

Fixpoint lookup_field (k : string) (fs : list (string * Value)) : option Value :=
  match fs with
  | [] => None
  | (k', v) :: fs' => if String.eqb k' k then Some v else lookup_field k fs'
  end.

Definition in_i64 (n : Z) : bool := (- 2^63 <=? n)%Z && (n <? 2^63)%Z.
Definition in_i32 (n : Z) : bool := (- 2^31 <=? n)%Z && (n <? 2^31)%Z.

(** A required [String] field, and one with [#[serde(default)]]. *)
Definition req_str (k : string) (fs : list (string * Value)) : option string :=
  match lookup_field k fs with Some (JString s) => Some s | _ => None end.
Definition def_str (k : string) (fs : list (string * Value)) : option string :=
  match lookup_field k fs with
  | None => Some ""
  | Some (JString s) => Some s
  | Some _ => None
  end.

(** Integer fields, [in_range] being the width of the Rust type. *)
Definition req_int (in_range : Z -> bool) (k : string) (fs : list (string * Value)) : option Z :=
  match lookup_field k fs with
  | Some (JNumber n) => if in_range n then Some n else None
  | _ => None
  end.
Definition def_int (in_range : Z -> bool) (k : string) (fs : list (string * Value)) : option Z :=
  match lookup_field k fs with
  | None => Some 0%Z
  | Some (JNumber n) => if in_range n then Some n else None
  | Some _ => None
  end.

Module Player.
Record t := mk {
  pid : Z; name : string; model : string; version : string;
  ip : string; network : string; lineout : Z; serial : string
}.
#[global] Instance deserialize : Deserialize t :=
  fun v => match v with
  | JObject fs =>
      let? pid := req_int in_i64 "pid" fs in
      let? name := req_str "name" fs in
      let? model := req_str "model" fs in
      let? version := def_str "version" fs in
      let? ip := def_str "ip" fs in
      let? network := def_str "network" fs in
      let? lineout := def_int in_i32 "lineout" fs in
      let? serial := def_str "serial" fs in
      Some (mk pid name model version ip network lineout serial)
  | _ => None
  end.
End Player.

Module NowPlayingMedia.
Record t := mk {
  song : string; album : string; artist : string; image_url : string;
  mid : string; qid : Z; sid : Z; station : string; media_type : string
}.
Definition default : t := mk "" "" "" "" "" 0 0 "" "".
#[global] Instance deserialize : Deserialize t :=
  fun v => match v with
  | JObject fs =>
      let? song := def_str "song" fs in
      let? album := def_str "album" fs in
      let? artist := def_str "artist" fs in
      let? image_url := def_str "image_url" fs in
      let? mid := def_str "mid" fs in
      let? qid := def_int in_i64 "qid" fs in
      let? sid := def_int in_i64 "sid" fs in
      let? station := def_str "station" fs in
      let? media_type := def_str "type" fs in
      Some (mk song album artist image_url mid qid sid station media_type)
  | _ => None
  end.
End NowPlayingMedia.

Module QueueItem.
Record t := mk {
  qid : Z; song : string; album : string; artist : string;
  image_url : string; mid : string
}.
#[global] Instance deserialize : Deserialize t :=
  fun v => match v with
  | JObject fs =>
      let? qid := req_int in_i64 "qid" fs in
      let? song := req_str "song" fs in
      let? album := def_str "album" fs in
      let? artist := def_str "artist" fs in
      let? image_url := def_str "image_url" fs in
      let? mid := def_str "mid" fs in
      Some (mk qid song album artist image_url mid)
  | _ => None
  end.
End QueueItem.

Module MusicSource.
Record t := mk {
  sid : Z; name : string; source_type : string; image_url : string;
  available : string; service_username : string
}.
#[global] Instance deserialize : Deserialize t :=
  fun v => match v with
  | JObject fs =>
      let? sid := req_int in_i64 "sid" fs in
      let? name := req_str "name" fs in
      let? source_type := req_str "type" fs in
      let? image_url := def_str "image_url" fs in
      let? available := def_str "available" fs in
      let? service_username := def_str "service_username" fs in
      Some (mk sid name source_type image_url available service_username)
  | _ => None
  end.
End MusicSource.

Module BrowseItem.
Record t := mk {
  container : string; cid : string; mid : string; name : string;
  item_type : string; image_url : string; playable : string
}.
#[global] Instance deserialize : Deserialize t :=
  fun v => match v with
  | JObject fs =>
      let? container := def_str "container" fs in
      let? cid := def_str "cid" fs in
      let? mid := def_str "mid" fs in
      let? name := req_str "name" fs in
      let? item_type := def_str "type" fs in
      let? image_url := def_str "image_url" fs in
      let? playable := def_str "playable" fs in
      Some (mk container cid mid name item_type image_url playable)
  | _ => None
  end.
End BrowseItem.

Inductive PlayState := PSUnknown | Play | Pause | Stop.
Inductive MuteState := MuteOff | MuteOn.
Inductive RepeatMode := RepeatOff | OnOne | OnAll.
Inductive ShuffleMode := ShuffleOff | ShuffleOn.

Definition PlayState_from_str (s : string) : PlayState :=
  if String.eqb s "play" then Play
  else if String.eqb s "pause" then Pause
  else if String.eqb s "stop" then Stop
  else PSUnknown.

Definition MuteState_from_str (s : string) : MuteState :=
  if String.eqb s "on" then MuteOn else MuteOff.

Definition RepeatMode_from_str (s : string) : RepeatMode :=
  if String.eqb s "on_one" then OnOne
  else if String.eqb s "on_all" then OnAll
  else RepeatOff.

Definition ShuffleMode_from_str (s : string) : ShuffleMode :=
  if String.eqb s "on" then ShuffleOn else ShuffleOff.

(** ** Application state ([app.rs], [config.rs]) *)

Record ConnectionConfig := mkConnectionConfig {
  host : option string;
  discovery_timeout : Z;
  reconnect_delay : Z
}.

Record UiConfig := mkUiConfig {
  volume_step : Z;
  refresh_rate : Z
}.

Record Config := mkConfig {
  connection : ConnectionConfig;
  ui : UiConfig
}.

Inductive View :=
  Main | Devices | Queue | Browse | Inputs | SurroundModes | SoundSettings | Help.

Inductive ConnectionState := Disconnected | Discovering | Connected.

(** [AvrState]; [master_volume] is a [u8]. *)
Record AvrState := mkAvrState {
  connected : bool;
  power : bool;
  master_volume : Z;
  muted : bool;
  surround_mode : string;
  input_source : string
}.

(** [HeosHandle] wraps the sending half of the command channel; a send
    fails once the receiving writer task has gone. *)
Record HeosHandle := mkHeosHandle { cmd_tx_open : bool }.
Record AvrHandle := mkAvrHandle { avr_cmd_tx_open : bool }.

(** [PlayerState]; [volume] is a [u8]. *)
Record PlayerState := mkPlayerState {
  player : option Player.t;
  now_playing : NowPlayingMedia.t;
  play_state : PlayState;
  volume : Z;
  mute : MuteState;
  repeat : RepeatMode;
  shuffle : ShuffleMode
}.

Definition with_player (x : PlayerState) (v : option Player.t) : PlayerState :=
  {| player := v;
     now_playing := now_playing x;
     play_state := play_state x;
     volume := volume x;
     mute := mute x;
     repeat := repeat x;
     shuffle := shuffle x |}.

Definition with_play_state (x : PlayerState) (v : PlayState) : PlayerState :=
  {| player := player x;
     now_playing := now_playing x;
     play_state := v;
     volume := volume x;
     mute := mute x;
     repeat := repeat x;
     shuffle := shuffle x |}.

Definition with_volume (x : PlayerState) (v : Z) : PlayerState :=
  {| player := player x;
     now_playing := now_playing x;
     play_state := play_state x;
     volume := v;
     mute := mute x;
     repeat := repeat x;
     shuffle := shuffle x |}.

Definition with_mute (x : PlayerState) (v : MuteState) : PlayerState :=
  {| player := player x;
     now_playing := now_playing x;
     play_state := play_state x;
     volume := volume x;
     mute := v;
     repeat := repeat x;
     shuffle := shuffle x |}.

Definition with_repeat (x : PlayerState) (v : RepeatMode) : PlayerState :=
  {| player := player x;
     now_playing := now_playing x;
     play_state := play_state x;
     volume := volume x;
     mute := mute x;
     repeat := v;
     shuffle := shuffle x |}.

Definition with_shuffle (x : PlayerState) (v : ShuffleMode) : PlayerState :=
  {| player := player x;
     now_playing := now_playing x;
     play_state := play_state x;
     volume := volume x;
     mute := mute x;
     repeat := repeat x;
     shuffle := v |}.

Definition with_now_playing (x : PlayerState) (v : NowPlayingMedia.t) : PlayerState :=
  {| player := player x;
     now_playing := v;
     play_state := play_state x;
     volume := volume x;
     mute := mute x;
     repeat := repeat x;
     shuffle := shuffle x |}.

(** [PlayerState::default()] *)
Definition PlayerState_default : PlayerState :=
  mkPlayerState None NowPlayingMedia.default PSUnknown 0 MuteOff RepeatOff ShuffleOff.

(** [App] *)
Record App := mkApp {
  config : Config;
  connection_state : ConnectionState;
  current_view : View;
  previous_view : View;
  should_quit : bool;
  status_message : option string;
  players : list Player.t;
  current_player_idx : nat;
  player_state : PlayerState;
  queue : list QueueItem.t;
  queue_selected : nat;
  music_sources : list MusicSource.t;
  browse_items : list BrowseItem.t;
  browse_selected : nat;
  browse_stack : list (Z * string);
  inputs : list MusicSource.t;
  input_selected : nat;
  device_selected : nat;
  surround_selected : nat;
  sound_setting_selected : nat;
  handle : option HeosHandle;
  avr_handle : option AvrHandle;
  avr_state : AvrState
}.

Definition with_connection_state (x : App) (v : ConnectionState) : App :=
  {| config := config x;
     connection_state := v;
     current_view := current_view x;
     previous_view := previous_view x;
     should_quit := should_quit x;
     status_message := status_message x;
     players := players x;
     current_player_idx := current_player_idx x;
     player_state := player_state x;
     queue := queue x;
     queue_selected := queue_selected x;
     music_sources := music_sources x;
     browse_items := browse_items x;
     browse_selected := browse_selected x;
     browse_stack := browse_stack x;
     inputs := inputs x;
     input_selected := input_selected x;
     device_selected := device_selected x;
     surround_selected := surround_selected x;
     sound_setting_selected := sound_setting_selected x;
     handle := handle x;
     avr_handle := avr_handle x;
     avr_state := avr_state x |}.

Definition with_status_message (x : App) (v : option string) : App :=
  {| config := config x;
     connection_state := connection_state x;
     current_view := current_view x;
     previous_view := previous_view x;
     should_quit := should_quit x;
     status_message := v;
     players := players x;
     current_player_idx := current_player_idx x;
     player_state := player_state x;
     queue := queue x;
     queue_selected := queue_selected x;
     music_sources := music_sources x;
     browse_items := browse_items x;
     browse_selected := browse_selected x;
     browse_stack := browse_stack x;
     inputs := inputs x;
     input_selected := input_selected x;
     device_selected := device_selected x;
     surround_selected := surround_selected x;
     sound_setting_selected := sound_setting_selected x;
     handle := handle x;
     avr_handle := avr_handle x;
     avr_state := avr_state x |}.

Definition with_players (x : App) (v : list Player.t) : App :=
  {| config := config x;
     connection_state := connection_state x;
     current_view := current_view x;
     previous_view := previous_view x;
     should_quit := should_quit x;
     status_message := status_message x;
     players := v;
     current_player_idx := current_player_idx x;
     player_state := player_state x;
     queue := queue x;
     queue_selected := queue_selected x;
     music_sources := music_sources x;
     browse_items := browse_items x;
     browse_selected := browse_selected x;
     browse_stack := browse_stack x;
     inputs := inputs x;
     input_selected := input_selected x;
     device_selected := device_selected x;
     surround_selected := surround_selected x;
     sound_setting_selected := sound_setting_selected x;
     handle := handle x;
     avr_handle := avr_handle x;
     avr_state := avr_state x |}.

Definition with_current_player_idx (x : App) (v : nat) : App :=
  {| config := config x;
     connection_state := connection_state x;
     current_view := current_view x;
     previous_view := previous_view x;
     should_quit := should_quit x;
     status_message := status_message x;
     players := players x;
     current_player_idx := v;
     player_state := player_state x;
     queue := queue x;
     queue_selected := queue_selected x;
     music_sources := music_sources x;
     browse_items := browse_items x;
     browse_selected := browse_selected x;
     browse_stack := browse_stack x;
     inputs := inputs x;
     input_selected := input_selected x;
     device_selected := device_selected x;
     surround_selected := surround_selected x;
     sound_setting_selected := sound_setting_selected x;
     handle := handle x;
     avr_handle := avr_handle x;
     avr_state := avr_state x |}.

Definition with_player_state (x : App) (v : PlayerState) : App :=
  {| config := config x;
     connection_state := connection_state x;
     current_view := current_view x;
     previous_view := previous_view x;
     should_quit := should_quit x;
     status_message := status_message x;
     players := players x;
     current_player_idx := current_player_idx x;
     player_state := v;
     queue := queue x;
     queue_selected := queue_selected x;
     music_sources := music_sources x;
     browse_items := browse_items x;
     browse_selected := browse_selected x;
     browse_stack := browse_stack x;
     inputs := inputs x;
     input_selected := input_selected x;
     device_selected := device_selected x;
     surround_selected := surround_selected x;
     sound_setting_selected := sound_setting_selected x;
     handle := handle x;
     avr_handle := avr_handle x;
     avr_state := avr_state x |}.

Definition with_queue (x : App) (v : list QueueItem.t) : App :=
  {| config := config x;
     connection_state := connection_state x;
     current_view := current_view x;
     previous_view := previous_view x;
     should_quit := should_quit x;
     status_message := status_message x;
     players := players x;
     current_player_idx := current_player_idx x;
     player_state := player_state x;
     queue := v;
     queue_selected := queue_selected x;
     music_sources := music_sources x;
     browse_items := browse_items x;
     browse_selected := browse_selected x;
     browse_stack := browse_stack x;
     inputs := inputs x;
     input_selected := input_selected x;
     device_selected := device_selected x;
     surround_selected := surround_selected x;
     sound_setting_selected := sound_setting_selected x;
     handle := handle x;
     avr_handle := avr_handle x;
     avr_state := avr_state x |}.

Definition with_music_sources (x : App) (v : list MusicSource.t) : App :=
  {| config := config x;
     connection_state := connection_state x;
     current_view := current_view x;
     previous_view := previous_view x;
     should_quit := should_quit x;
     status_message := status_message x;
     players := players x;
     current_player_idx := current_player_idx x;
     player_state := player_state x;
     queue := queue x;
     queue_selected := queue_selected x;
     music_sources := v;
     browse_items := browse_items x;
     browse_selected := browse_selected x;
     browse_stack := browse_stack x;
     inputs := inputs x;
     input_selected := input_selected x;
     device_selected := device_selected x;
     surround_selected := surround_selected x;
     sound_setting_selected := sound_setting_selected x;
     handle := handle x;
     avr_handle := avr_handle x;
     avr_state := avr_state x |}.

Definition with_inputs (x : App) (v : list MusicSource.t) : App :=
  {| config := config x;
     connection_state := connection_state x;
     current_view := current_view x;
     previous_view := previous_view x;
     should_quit := should_quit x;
     status_message := status_message x;
     players := players x;
     current_player_idx := current_player_idx x;
     player_state := player_state x;
     queue := queue x;
     queue_selected := queue_selected x;
     music_sources := music_sources x;
     browse_items := browse_items x;
     browse_selected := browse_selected x;
     browse_stack := browse_stack x;
     inputs := v;
     input_selected := input_selected x;
     device_selected := device_selected x;
     surround_selected := surround_selected x;
     sound_setting_selected := sound_setting_selected x;
     handle := handle x;
     avr_handle := avr_handle x;
     avr_state := avr_state x |}.

Definition with_browse_items (x : App) (v : list BrowseItem.t) : App :=
  {| config := config x;
     connection_state := connection_state x;
     current_view := current_view x;
     previous_view := previous_view x;
     should_quit := should_quit x;
     status_message := status_message x;
     players := players x;
     current_player_idx := current_player_idx x;
     player_state := player_state x;
     queue := queue x;
     queue_selected := queue_selected x;
     music_sources := music_sources x;
     browse_items := v;
     browse_selected := browse_selected x;
     browse_stack := browse_stack x;
     inputs := inputs x;
     input_selected := input_selected x;
     device_selected := device_selected x;
     surround_selected := surround_selected x;
     sound_setting_selected := sound_setting_selected x;
     handle := handle x;
     avr_handle := avr_handle x;
     avr_state := avr_state x |}.

Definition with_browse_selected (x : App) (v : nat) : App :=
  {| config := config x;
     connection_state := connection_state x;
     current_view := current_view x;
     previous_view := previous_view x;
     should_quit := should_quit x;
     status_message := status_message x;
     players := players x;
     current_player_idx := current_player_idx x;
     player_state := player_state x;
     queue := queue x;
     queue_selected := queue_selected x;
     music_sources := music_sources x;
     browse_items := browse_items x;
     browse_selected := v;
     browse_stack := browse_stack x;
     inputs := inputs x;
     input_selected := input_selected x;
     device_selected := device_selected x;
     surround_selected := surround_selected x;
     sound_setting_selected := sound_setting_selected x;
     handle := handle x;
     avr_handle := avr_handle x;
     avr_state := avr_state x |}.

Definition with_handle (x : App) (v : option HeosHandle) : App :=
  {| config := config x;
     connection_state := connection_state x;
     current_view := current_view x;
     previous_view := previous_view x;
     should_quit := should_quit x;
     status_message := status_message x;
     players := players x;
     current_player_idx := current_player_idx x;
     player_state := player_state x;
     queue := queue x;
     queue_selected := queue_selected x;
     music_sources := music_sources x;
     browse_items := browse_items x;
     browse_selected := browse_selected x;
     browse_stack := browse_stack x;
     inputs := inputs x;
     input_selected := input_selected x;
     device_selected := device_selected x;
     surround_selected := surround_selected x;
     sound_setting_selected := sound_setting_selected x;
     handle := v;
     avr_handle := avr_handle x;
     avr_state := avr_state x |}.


(** ** The reconciler ([App::handle_heos_event], [App::handle_response]) *)

Inductive Result (A : Type) := Ok (a : A) | Err (e : string).
Arguments Ok {A} a.
Arguments Err {A} e.

Definition current_player (a : App) : option Player.t :=
  nth_error (players a) (current_player_idx a).

Definition current_pid (a : App) : option Z :=
  option_map Player.pid (current_player a).

(** [self.current_pid() == Some(pid)] *)
Definition is_current_pid (a : App) (pid : Z) : bool :=
  match current_pid a with
  | Some p => Z.eqb p pid
  | None => false
  end.

Definition set_status (a : App) (msg : string) : App :=
  with_status_message a (Some msg).

Definition update_player_state (a : App) (f : PlayerState -> PlayerState) : App :=
  with_player_state a (f (player_state a)).

(** [HeosEvent] of [client.rs]; [level] is a [u8]. *)
Module HeosEvent.
Inductive t :=
| Connected
| Disconnected
| PlayersChanged (players : list Player.t)
| PlayerStateChanged (pid : Z) (state : PlayState)
| NowPlayingChanged (pid : Z)
| VolumeChanged (pid : Z) (level : Z) (mute : MuteState)
| PlayModeChanged (pid : Z) (repeat : RepeatMode) (shuffle : ShuffleMode)
| QueueChanged (pid : Z)
| Error (msg : string)
| Response (response : HeosResponse).
End HeosEvent.

Definition is_heos_server (s : MusicSource.t) : bool :=
  String.eqb (MusicSource.source_type s) "heos_server".

(** [App::handle_response] *)
Definition handle_response (response : HeosResponse) (a : App) : App :=
  if negb (is_success response) then
    let params := parse_message response in
    match hm_get "text" params with
    | Some text => set_status a ("Error: " ++ text)
    | None => a
    end
  else
    let cmd := hdr_command (heos response) in
    if Str.contains "get_players" cmd then
      match get_payload_array Player.t response with
      | Some ps =>
          let a := with_players a ps in
          match players a, player (player_state a) with
          | p0 :: _, None => update_player_state a (fun s => with_player s (Some p0))
          | _, _ => a
          end
      | None => a
      end
    else if Str.contains "get_play_state" cmd then
      let params := parse_message response in
      match hm_get "state" params with
      | Some state =>
          update_player_state a (fun s => with_play_state s (PlayState_from_str state))
      | None => a
      end
    else if Str.contains "get_now_playing_media" cmd then
      match get_payload_object NowPlayingMedia.t response with
      | Some media => update_player_state a (fun s => with_now_playing s media)
      | None => a
      end
    else if Str.contains "get_volume" cmd || Str.contains "volume_up" cmd
            || Str.contains "volume_down" cmd then
      let params := parse_message response in
      match match hm_get "level" params with Some s => parse_u8 s | None => None end with
      | Some level => update_player_state a (fun s => with_volume s level)
      | None => a
      end
    else if Str.contains "get_mute" cmd || Str.contains "set_mute" cmd
            || Str.contains "toggle_mute" cmd then
      let params := parse_message response in
      match hm_get "state" params with
      | Some state => update_player_state a (fun s => with_mute s (MuteState_from_str state))
      | None => a
      end
    else if Str.contains "get_play_mode" cmd || Str.contains "set_play_mode" cmd then
      let params := parse_message response in
      let a :=
        match hm_get "repeat" params with
        | Some repeat => update_player_state a (fun s => with_repeat s (RepeatMode_from_str repeat))
        | None => a
        end in
      match hm_get "shuffle" params with
      | Some shuffle => update_player_state a (fun s => with_shuffle s (ShuffleMode_from_str shuffle))
      | None => a
      end
    else if Str.contains "get_queue" cmd then
      match get_payload_array QueueItem.t response with
      | Some queue => with_queue a queue
      | None => a
      end
    else if Str.contains "get_music_sources" cmd then
      match get_payload_array MusicSource.t response with
      | Some sources =>
          let a := with_music_sources a (filter (fun s => negb (is_heos_server s)) sources) in
          with_inputs a
            (filter (fun s => is_heos_server s || Str.contains "Input" (MusicSource.name s)) sources)
      | None => a
      end
    else if Str.contains "browse" cmd then
      match get_payload_array BrowseItem.t response with
      | Some items => with_browse_selected (with_browse_items a items) 0
      | None => a
      end
    else a.

(** [App::handle_heos_event] *)
Definition handle_heos_event (event : HeosEvent.t) (a : App) : App :=
  match event with
  | HeosEvent.Connected =>
      set_status (with_connection_state a Connected) "Connected to HEOS device"
  | HeosEvent.Disconnected =>
      with_handle
        (set_status (with_connection_state a Disconnected) "Disconnected from HEOS device")
        None
  | HeosEvent.PlayersChanged ps =>
      match ps with
      | [] => a
      | _ => with_players a ps
      end
  | HeosEvent.PlayerStateChanged pid state =>
      if is_current_pid a pid then update_player_state a (fun s => with_play_state s state)
      else a
  | HeosEvent.NowPlayingChanged _ => a
  | HeosEvent.VolumeChanged pid level mute =>
      if is_current_pid a pid then
        update_player_state a (fun s => with_mute (with_volume s level) mute)
      else a
  | HeosEvent.PlayModeChanged pid repeat shuffle =>
      if is_current_pid a pid then
        update_player_state a (fun s => with_shuffle (with_repeat s repeat) shuffle)
      else a
  | HeosEvent.QueueChanged _ => a
  | HeosEvent.Error msg => set_status a ("Error: " ++ msg)
  | HeosEvent.Response response => handle_response response a
  end.

(** ** Selecting a player ([App::select_player]) *)

(** [HeosHandle::send]: the command is queued, or the channel is closed. *)
Definition send (h : HeosHandle) (cmd : HeosCommand) : Result unit :=
  if cmd_tx_open h then Ok tt else Err "Client disconnected".

(** A sequence of [send(..).await?]: the commands queued, and the result. *)
Fixpoint send_seq (h : HeosHandle) (cmds : list HeosCommand) : list HeosCommand * Result unit :=
  match cmds with
  | [] => ([], Ok tt)
  | c :: cs =>
      match send h c with
      | Ok _ => let '(sent, r) := send_seq h cs in (c :: sent, r)
      | Err e => ([], Err e)
      end
  end.

(** [App::refresh_player_state] *)
Definition refresh_player_state (a : App) : list HeosCommand * Result unit :=
  match handle a, current_pid a with
  | Some h, Some pid =>
      send_seq h [Protocol.get_play_state pid; Protocol.get_now_playing_media pid;
                  Protocol.get_volume pid; Protocol.get_mute pid;
                  Protocol.get_play_mode pid]
  | _, _ => ([], Ok tt)
  end.

(** [App::select_player]: the new state, the commands queued, the result. *)
Definition select_player (a : App) (idx : nat) : App * list HeosCommand * Result unit :=
  if (idx <? length (players a))%nat then
    let a := with_current_player_idx a idx in
    let a := with_player_state a PlayerState_default in
    let a := match nth_error (players a) idx with
             | Some p => update_player_state a (fun s => with_player s (Some p))
             | None => a
             end in
    let '(sent, r) := refresh_player_state a in
    (a, sent, r)
  else (a, [], Ok tt).

(** ** SSDP discovery ([discovery.rs]) *)

Record DiscoveredDevice := mkDiscoveredDevice {
  ip : string;
  location : string;
  friendly_name : option string
}.

(** What one [timeout(remaining, socket.recv_from(&mut buf))] yields before
    the deadline: a datagram (its payload, read through
    [String::from_utf8_lossy], and its source IP), a receive error, or the
    timeout. The end of the list is the deadline being reached. *)
Inductive RecvOutcome :=
| Datagram (bytes : string) (src_ip : string)
| RecvError
| RecvTimeout.

(** [parse_header]: the first line whose upper-cased text starts with
    [HEADER:], and the trimmed text after its first colon. *)
Fixpoint find_header (prefix : string) (ls : list string) : option string :=
  match ls with
  | [] => None
  | line :: ls' =>
      if Str.starts_with prefix (Str.to_uppercase line) then
        match Str.split_once ":" line with
        | Some (_, rest) => Some (Str.trim rest)
        | None => None
        end
      else find_header prefix ls'
  end.

Definition parse_header (response header : string) : option string :=
  find_header (Str.to_uppercase header ++ ":") (Str.lines response).

(** The vendor test of the receive loop. *)
Definition is_heos (response : string) : bool :=
  Str.contains "heos" (Str.to_lowercase response)
  || Str.contains "denon" (Str.to_lowercase response)
  || Str.contains "marantz" (Str.to_lowercase response)
  || Str.contains "ACT-Denon" response.

(** The receive buffer is [[0u8; 2048]]: longer datagrams are cut. *)
Definition recv_buf_len : nat := 2048.

(** The [loop] of [discover_devices], from the devices found so far. *)
Fixpoint recv_loop (devices : list DiscoveredDevice) (rs : list RecvOutcome)
  : list DiscoveredDevice :=
  match rs with
  | [] => devices
  | Datagram bytes src :: rs' =>
      let response := Str.take recv_buf_len bytes in
      let devices :=
        if is_heos response then
          if existsb (fun d => String.eqb (ip d) src) devices then devices
          else (devices ++ [mkDiscoveredDevice src
                              (match parse_header response "LOCATION" with
                               | Some l => l
                               | None => ""
                               end) None])%list
        else devices in
      recv_loop devices rs'
  | RecvError :: _ => devices
  | RecvTimeout :: _ => devices
  end.

(** [discover_devices(timeout_secs)]: [socket] is the outcome of binding
    the socket and enabling broadcast (both propagated with [?]); the probes
    are sent with their errors ignored; a zero timeout leaves no time to
    receive. *)
Definition discover_devices (socket : Result unit) (timeout_secs : Z)
    (rs : list RecvOutcome) : Result (list DiscoveredDevice) :=
  match socket with
  | Err e => Err e
  | Ok _ => if (timeout_secs =? 0)%Z then Ok [] else Ok (recv_loop [] rs)
  end.

(** ** Reading a command line back (the device's side of Codec A)

    The repository only encodes commands; the definitions below follow the
    spec's description of the format (section 4.3). A line [heos://<namespace>/<action>[?k1=v1&k2=v2...]] ended by
    a line break is read by cutting the namespace at the first [/], the
    action at the first [?], the parameters at every [&] and each parameter
    at its first [=]. *)

Fixpoint strip_prefix (p s : string) : option string :=
  match p, s with
  | EmptyString, _ => Some s
  | String c p', String d s' => if Ascii.eqb c d then strip_prefix p' s' else None
  | String _ _, EmptyString => None
  end.

Fixpoint strip_crlf (s : string) : option string :=
  match s with
  | EmptyString => None
  | String c s' =>
      if String.eqb s (String "013" (String "010" EmptyString)) then Some EmptyString
      else option_map (String c) (strip_crlf s')
  end.

Fixpoint decode_params (ps : list string) : option (list (string * string)) :=
  match ps with
  | [] => Some []
  | p :: ps' =>
      match Str.split_once "=" p, decode_params ps' with
      | Some kv, Some kvs => Some (kv :: kvs)
      | _, _ => None
      end
  end.

(** The spec's reading of one command line. *)
Definition spec_decode_command_line (line : string) : option HeosCommand :=
  let? rest := strip_prefix "heos://" line in
  let? body := strip_crlf rest in
  match Str.split_once "/" body with
  | None => None
  | Some (g, rest2) =>
      match Str.split_once "?" rest2 with
      | None => Some (mkHeosCommand g rest2 [])
      | Some (act, query) =>
          let? ps := decode_params (Str.split "&" query) in
          Some (mkHeosCommand g act ps)
      end
  end.

(** [c] does not occur in [s]. *)
Fixpoint excludes (c : ascii) (s : string) : bool :=
  match s with
  | EmptyString => true
  | String x s' => negb (Ascii.eqb x c) && excludes c s'
  end.

(** The commands the spec's reading recovers: no [/] in the namespace, no
    [?] in the action, no [=] or [&] in a key and no [&] in a value. *)
Definition unambiguous (c : HeosCommand) : bool :=
  excludes "/" (group c) && excludes "?" (command c)
  && forallb (fun '(k, v) => excludes "=" k && excludes "&" k && excludes "&" v) (params c).

(** ** Sample states *)

Definition sample_player (pid : Z) (name : string) : Player.t :=
  Player.mk pid name "HEOS 1" "" "" "" 0 "".

Definition sample_config : Config :=
  mkConfig (mkConnectionConfig None 5 3) (mkUiConfig 5 100).

(** Two players, the first one active, a live command channel. *)
Definition sample_app : App :=
  mkApp sample_config Connected Main Main false None
    [sample_player 1 "Kitchen"; sample_player 2 "Living Room"] 0 PlayerState_default
    [] 0 [] [] 0 [] [] 0 0 0 0 (Some (mkHeosHandle true)) None
    (mkAvrState false false 0 false "" "").

(** A response envelope with an empty payload. *)
Definition mk_response (cmd : string) (result : option string) (message : string)
  : HeosResponse :=
  mkHeosResponse (mkHeosHeader cmd result message) JNull JNull.

(** The device-identifier of the events that carry one. *)
Definition heos_event_pid (e : HeosEvent.t) : option Z :=
  match e with
  | HeosEvent.PlayerStateChanged pid _
  | HeosEvent.NowPlayingChanged pid
  | HeosEvent.VolumeChanged pid _ _
  | HeosEvent.PlayModeChanged pid _ _
  | HeosEvent.QueueChanged pid => Some pid
  | _ => None
  end.


(** ** The rest of [types.rs]: names and successors of the enums *)

Definition PlayState_as_str (s : PlayState) : string :=
  match s with
  | PSUnknown => "unknown"
  | Play => "play"
  | Pause => "pause"
  | Stop => "stop"
  end.

Definition MuteState_as_str (s : MuteState) : string :=
  match s with
  | MuteOn => "on"
  | MuteOff => "off"
  end.

Definition RepeatMode_as_str (r : RepeatMode) : string :=
  match r with
  | RepeatOff => "off"
  | OnOne => "on_one"
  | OnAll => "on_all"
  end.

(** [RepeatMode::next]: Off, then OnAll, then OnOne. *)
Definition RepeatMode_next (r : RepeatMode) : RepeatMode :=
  match r with
  | RepeatOff => OnAll
  | OnAll => OnOne
  | OnOne => RepeatOff
  end.

Definition ShuffleMode_as_str (s : ShuffleMode) : string :=
  match s with
  | ShuffleOn => "on"
  | ShuffleOff => "off"
  end.

Definition ShuffleMode_toggle (s : ShuffleMode) : ShuffleMode :=
  match s with
  | ShuffleOff => ShuffleOn
  | ShuffleOn => ShuffleOff
  end.

(** ** Surround modes ([SurroundMode] in [avr.rs]) *)

Module SurroundMode.

Inductive t :=
| Movie | Music | Game | Direct | PureDirect | Stereo | Auto | DolbyDigital
| DtsSurround | MultiChStereo | RockArena | JazzClub | MonoMovie | Matrix
| VideoGame | Virtual.

Definition command (m : t) : string :=
  match m with
  | Movie => "MSMOVIE"
  | Music => "MSMUSIC"
  | Game => "MSGAME"
  | Direct => "MSDIRECT"
  | PureDirect => "MSPURE DIRECT"
  | Stereo => "MSSTEREO"
  | Auto => "MSAUTO"
  | DolbyDigital => "MSDOLBY DIGITAL"
  | DtsSurround => "MSDTS SURROUND"
  | MultiChStereo => "MSMCH STEREO"
  | RockArena => "MSROCK ARENA"
  | JazzClub => "MSJAZZ CLUB"
  | MonoMovie => "MSMONO MOVIE"
  | Matrix => "MSMATRIX"
  | VideoGame => "MSVIDEO GAME"
  | Virtual => "MSVIRTUAL"
  end.

Definition display_name (m : t) : string :=
  match m with
  | Movie => "Movie"
  | Music => "Music"
  | Game => "Game"
  | Direct => "Direct"
  | PureDirect => "Pure Direct"
  | Stereo => "Stereo"
  | Auto => "Auto"
  | DolbyDigital => "Dolby Digital"
  | DtsSurround => "DTS Surround"
  | MultiChStereo => "Multi Ch Stereo"
  | RockArena => "Rock Arena"
  | JazzClub => "Jazz Club"
  | MonoMovie => "Mono Movie"
  | Matrix => "Matrix"
  | VideoGame => "Video Game"
  | Virtual => "Virtual"
  end.

Definition all : list t :=
  [Movie; Music; Game; Direct; PureDirect; Stereo; Auto; DolbyDigital;
   DtsSurround; MultiChStereo; RockArena; JazzClub; MonoMovie; Matrix;
   VideoGame; Virtual].

Definition from_response (s : string) : option t :=
  let s := Str.to_uppercase (Str.trim s) in
  if String.eqb s "MOVIE" then Some Movie
  else if String.eqb s "MUSIC" then Some Music
  else if String.eqb s "GAME" then Some Game
  else if String.eqb s "DIRECT" then Some Direct
  else if String.eqb s "PURE DIRECT" then Some PureDirect
  else if String.eqb s "STEREO" then Some Stereo
  else if String.eqb s "AUTO" then Some Auto
  else if String.eqb s "DOLBY DIGITAL" then Some DolbyDigital
  else if String.eqb s "DTS SURROUND" then Some DtsSurround
  else if String.eqb s "MCH STEREO" then Some MultiChStereo
  else if String.eqb s "ROCK ARENA" then Some RockArena
  else if String.eqb s "JAZZ CLUB" then Some JazzClub
  else if String.eqb s "MONO MOVIE" then Some MonoMovie
  else if String.eqb s "MATRIX" then Some Matrix
  else if String.eqb s "VIDEO GAME" then Some VideoGame
  else if String.eqb s "VIRTUAL" then Some Virtual
  else None.

End SurroundMode.

(** The marker of the surround popup ([ui/surround.rs], [render]): a mode
    is shown as current when the reported mode equals its display name up
    to case, or contains the upper-cased display name. *)
Definition is_current_mode (surround_mode : string) (mode : SurroundMode.t) : bool :=
  String.eqb (Str.to_uppercase surround_mode)
             (Str.to_uppercase (SurroundMode.display_name mode))
  || Str.contains (Str.to_uppercase (SurroundMode.display_name mode)) surround_mode.

(** ** The AVR command channel ([AvrHandle] in [avr.rs]) *)

(** [format!("{:02}", n)] for an unsigned [n]. *)
Definition fmt_02 (n : Z) : string :=
  let s := z_to_string n in
  if (String.length s <? 2)%nat then "0" ++ s else s.

(** [AvrHandle::send_raw]: the line queued, [cmd] followed by a carriage
    return, or the error of a closed channel. *)
Definition send_raw (h : AvrHandle) (cmd : string) : list string * Result unit :=
  if avr_cmd_tx_open h then ([cmd ++ String "013" EmptyString], Ok tt)
  else ([], Err "AVR disconnected").

(** A sequence of [send_raw(..).await?]. *)
Fixpoint send_raw_seq (h : AvrHandle) (cmds : list string) : list string * Result unit :=
  match cmds with
  | [] => ([], Ok tt)
  | c :: cs =>
      match send_raw h c with
      | (sent, Ok _) => let '(sent', r) := send_raw_seq h cs in ((sent ++ sent')%list, r)
      | (sent, Err e) => (sent, Err e)
      end
  end.

(** The command strings the [AvrHandle] methods pass to [send_raw]; a [u8]
    argument is a [Z] in [0, 255]. *)
Module AvrCmd.

Definition power_on := "PWON".
Definition power_off := "PWSTANDBY".
Definition volume_up := "MVUP".
Definition volume_down := "MVDOWN".
Definition set_volume (level : Z) := "MV" ++ fmt_02 (Z.min level 98).
Definition mute_on := "MUON".
Definition mute_off := "MUOFF".
Definition set_surround_mode (mode : SurroundMode.t) := SurroundMode.command mode.
Definition set_input (input : string) := "SI" ++ input.
Definition input_hdmi (num : Z) := set_input ("HDMI" ++ z_to_string (Z.min num 7)).
Definition bass_up := "PSBAS UP".
Definition bass_down := "PSBAS DOWN".
Definition treble_up := "PSTRE UP".
Definition treble_down := "PSTRE DOWN".
Definition dynamic_eq_on := "PSDYNEQ ON".
Definition dynamic_eq_off := "PSDYNEQ OFF".
Definition dialog_enhancer (level : Z) :=
  let level := Z.min level 6 in
  if (level =? 0)%Z then "PSDIL OFF" else "PSDIL " ++ fmt_02 level.
Definition subwoofer_up := "PSSWL UP".
Definition subwoofer_down := "PSSWL DOWN".
(** [query_status]: the five queries, each sent with [?]. *)
Definition query_status := ["PW?"; "MV?"; "MU?"; "SI?"; "MS?"].

End AvrCmd.

(** The reader task of [AvrClient::connect], for one line read: the line
    is trimmed and, unless empty, decoded by [handle_response]. *)
Definition avr_read_line (line : string) : option AvrEvent :=
  let response := Str.trim line in
  if String.eqb response "" then None else avr_handle_response response.

(** ** More of [App] ([app.rs]) *)

Definition with_current_view (x : App) (v : View) : App :=
  {| config := config x;
     connection_state := connection_state x;
     current_view := v;
     previous_view := previous_view x;
     should_quit := should_quit x;
     status_message := status_message x;
     players := players x;
     current_player_idx := current_player_idx x;
     player_state := player_state x;
     queue := queue x;
     queue_selected := queue_selected x;
     music_sources := music_sources x;
     browse_items := browse_items x;
     browse_selected := browse_selected x;
     browse_stack := browse_stack x;
     inputs := inputs x;
     input_selected := input_selected x;
     device_selected := device_selected x;
     surround_selected := surround_selected x;
     sound_setting_selected := sound_setting_selected x;
     handle := handle x;
     avr_handle := avr_handle x;
     avr_state := avr_state x |}.

Definition with_previous_view (x : App) (v : View) : App :=
  {| config := config x;
     connection_state := connection_state x;
     current_view := current_view x;
     previous_view := v;
     should_quit := should_quit x;
     status_message := status_message x;
     players := players x;
     current_player_idx := current_player_idx x;
     player_state := player_state x;
     queue := queue x;
     queue_selected := queue_selected x;
     music_sources := music_sources x;
     browse_items := browse_items x;
     browse_selected := browse_selected x;
     browse_stack := browse_stack x;
     inputs := inputs x;
     input_selected := input_selected x;
     device_selected := device_selected x;
     surround_selected := surround_selected x;
     sound_setting_selected := sound_setting_selected x;
     handle := handle x;
     avr_handle := avr_handle x;
     avr_state := avr_state x |}.

Definition with_browse_stack (x : App) (v : list (Z * string)) : App :=
  {| config := config x;
     connection_state := connection_state x;
     current_view := current_view x;
     previous_view := previous_view x;
     should_quit := should_quit x;
     status_message := status_message x;
     players := players x;
     current_player_idx := current_player_idx x;
     player_state := player_state x;
     queue := queue x;
     queue_selected := queue_selected x;
     music_sources := music_sources x;
     browse_items := browse_items x;
     browse_selected := browse_selected x;
     browse_stack := v;
     inputs := inputs x;
     input_selected := input_selected x;
     device_selected := device_selected x;
     surround_selected := surround_selected x;
     sound_setting_selected := sound_setting_selected x;
     handle := handle x;
     avr_handle := avr_handle x;
     avr_state := avr_state x |}.

Definition with_avr_state (x : App) (v : AvrState) : App :=
  {| config := config x;
     connection_state := connection_state x;
     current_view := current_view x;
     previous_view := previous_view x;
     should_quit := should_quit x;
     status_message := status_message x;
     players := players x;
     current_player_idx := current_player_idx x;
     player_state := player_state x;
     queue := queue x;
     queue_selected := queue_selected x;
     music_sources := music_sources x;
     browse_items := browse_items x;
     browse_selected := browse_selected x;
     browse_stack := browse_stack x;
     inputs := inputs x;
     input_selected := input_selected x;
     device_selected := device_selected x;
     surround_selected := surround_selected x;
     sound_setting_selected := sound_setting_selected x;
     handle := handle x;
     avr_handle := avr_handle x;
     avr_state := v |}.

Definition with_avr_handle (x : App) (v : option AvrHandle) : App :=
  {| config := config x;
     connection_state := connection_state x;
     current_view := current_view x;
     previous_view := previous_view x;
     should_quit := should_quit x;
     status_message := status_message x;
     players := players x;
     current_player_idx := current_player_idx x;
     player_state := player_state x;
     queue := queue x;
     queue_selected := queue_selected x;
     music_sources := music_sources x;
     browse_items := browse_items x;
     browse_selected := browse_selected x;
     browse_stack := browse_stack x;
     inputs := inputs x;
     input_selected := input_selected x;
     device_selected := device_selected x;
     surround_selected := surround_selected x;
     sound_setting_selected := sound_setting_selected x;
     handle := handle x;
     avr_handle := v;
     avr_state := avr_state x |}.

Scheme Equality for View.

(** [App::show_view] *)
Definition show_view (view : View) (a : App) : App :=
  if negb (View_beq (current_view a) view) then
    with_current_view (with_previous_view a (current_view a)) view
  else a.

(** [App::go_back]; [Vec::pop] removes the last element. *)
Definition go_back (a : App) : App :=
  match current_view a with
  | Help | Devices | Queue | Inputs | SurroundModes | SoundSettings => with_current_view a Main
  | Browse =>
      match browse_stack a with
      | [] => with_current_view a Main
      | _ => with_browse_stack a (removelast (browse_stack a))
      end
  | Main => a
  end.

(** [App::handle_avr_event] *)
Definition handle_avr_event (event : AvrEvent) (a : App) : App :=
  let st := avr_state a in
  match event with
  | AvrConnected =>
      set_status
        (with_avr_state a {| connected := true; power := power st;
                             master_volume := master_volume st; muted := muted st;
                             surround_mode := surround_mode st;
                             input_source := input_source st |})
        "AVR control connected"
  | AvrDisconnected =>
      with_avr_handle
        (with_avr_state a {| connected := false; power := power st;
                             master_volume := master_volume st; muted := muted st;
                             surround_mode := surround_mode st;
                             input_source := input_source st |})
        None
  | MasterVolume vol =>
      with_avr_state a {| connected := connected st; power := power st;
                          master_volume := vol; muted := muted st;
                          surround_mode := surround_mode st;
                          input_source := input_source st |}
  | Mute m =>
      with_avr_state a {| connected := connected st; power := power st;
                          master_volume := master_volume st; muted := m;
                          surround_mode := surround_mode st;
                          input_source := input_source st |}
  | Power on =>
      with_avr_state a {| connected := connected st; power := on;
                          master_volume := master_volume st; muted := muted st;
                          surround_mode := surround_mode st;
                          input_source := input_source st |}
  | SurroundMode mode =>
      with_avr_state a {| connected := connected st; power := power st;
                          master_volume := master_volume st; muted := muted st;
                          surround_mode := mode;
                          input_source := input_source st |}
  | InputSource input =>
      with_avr_state a {| connected := connected st; power := power st;
                          master_volume := master_volume st; muted := muted st;
                          surround_mode := surround_mode st;
                          input_source := input |}
  | AvrError msg => set_status a ("AVR Error: " ++ msg)
  | Response _ => a
  end.

(** The AVR methods of [App], each [if let Some(avr) = &self.avr_handle]
    around the [AvrHandle] calls: [avr_query_status], [avr_set_surround_mode],
    [avr_set_input], [avr_volume_up], [avr_volume_down], [avr_mute_toggle],
    [avr_bass_up], [avr_bass_down], [avr_treble_up], [avr_treble_down],
    [avr_dynamic_eq_toggle], [avr_subwoofer_up], [avr_subwoofer_down]. *)
Inductive AvrAction :=
| AvrQueryStatus
| AvrSetSurroundMode (mode : SurroundMode.t)
| AvrSetInput (input : string)
| AvrVolumeUp
| AvrVolumeDown
| AvrMuteToggle
| AvrBassUp
| AvrBassDown
| AvrTrebleUp
| AvrTrebleDown
| AvrDynamicEqToggle
| AvrSubwooferUp
| AvrSubwooferDown.

(** The raw commands each method sends, in order. *)
Definition avr_action_commands (a : App) (act : AvrAction) : list string :=
  match act with
  | AvrQueryStatus => AvrCmd.query_status
  | AvrSetSurroundMode mode => [AvrCmd.set_surround_mode mode]
  | AvrSetInput input => [AvrCmd.set_input input]
  | AvrVolumeUp => [AvrCmd.volume_up]
  | AvrVolumeDown => [AvrCmd.volume_down]
  | AvrMuteToggle => if muted (avr_state a) then [AvrCmd.mute_off] else [AvrCmd.mute_on]
  | AvrBassUp => [AvrCmd.bass_up]
  | AvrBassDown => [AvrCmd.bass_down]
  | AvrTrebleUp => [AvrCmd.treble_up]
  | AvrTrebleDown => [AvrCmd.treble_down]
  | AvrDynamicEqToggle => [AvrCmd.dynamic_eq_on]
  | AvrSubwooferUp => [AvrCmd.subwoofer_up]
  | AvrSubwooferDown => [AvrCmd.subwoofer_down]
  end.

(** An AVR method of [App]: the lines queued and the result. *)
Definition run_avr_action (a : App) (act : AvrAction) : list string * Result unit :=
  match avr_handle a with
  | Some avr => send_raw_seq avr (avr_action_commands a act)
  | None => ([], Ok tt)
  end.

(** The player methods of [App], each [if let (Some(handle), Some(pid)) =
    (&self.handle, self.current_pid())] around one [HeosHandle] call:
    [toggle_play_pause], [stop], [next_track], [prev_track], [volume_up],
    [volume_down], [toggle_mute], [cycle_repeat], [toggle_shuffle],
    [refresh_queue], [play_queue_item], [play_input]. *)
Inductive PlayerAction :=
| TogglePlayPause
| StopPlayback
| NextTrack
| PrevTrack
| VolumeUp
| VolumeDown
| ToggleMute
| CycleRepeat
| ToggleShuffle
| RefreshQueue
| PlayQueueItem (qid : Z)
| PlayInput (input : string).

(** The command each method sends for the current player [pid]. *)
Definition player_action_command (a : App) (pid : Z) (act : PlayerAction) : HeosCommand :=
  match act with
  | TogglePlayPause =>
      match play_state (player_state a) with
      | Play => Protocol.set_play_state pid "pause"
      | _ => Protocol.set_play_state pid "play"
      end
  | StopPlayback => Protocol.set_play_state pid "stop"
  | NextTrack => Protocol.play_next pid
  | PrevTrack => Protocol.play_previous pid
  | VolumeUp => Protocol.volume_up pid (volume_step (ui (config a)))
  | VolumeDown => Protocol.volume_down pid (volume_step (ui (config a)))
  | ToggleMute => Protocol.toggle_mute pid
  | CycleRepeat =>
      let new_repeat := RepeatMode_next (repeat (player_state a)) in
      Protocol.set_play_mode pid (RepeatMode_as_str new_repeat)
        (ShuffleMode_as_str (shuffle (player_state a)))
  | ToggleShuffle =>
      let new_shuffle := ShuffleMode_toggle (shuffle (player_state a)) in
      Protocol.set_play_mode pid (RepeatMode_as_str (repeat (player_state a)))
        (ShuffleMode_as_str new_shuffle)
  | RefreshQueue => Protocol.get_queue pid 0 100
  | PlayQueueItem qid => Protocol.play_queue pid qid
  | PlayInput input => Protocol.play_input pid input
  end.

(** A player method of [App]: the commands queued and the result. *)
Definition run_player_action (a : App) (act : PlayerAction) : list HeosCommand * Result unit :=
  match handle a, current_pid a with
  | Some h, Some pid => send_seq h [player_action_command a pid act]
  | _, _ => ([], Ok tt)
  end.

(** ** The HEOS reader task ([HeosClient::handle_event] in [client.rs]) *)

(** [params.get("pid").and_then(|s| s.parse().ok()).unwrap_or(0)] at [i64] *)
Definition param_pid (params : HashMap) : Z :=
  match match hm_get "pid" params with Some s => parse_i64 s | None => None end with
  | Some pid => pid
  | None => 0%Z
  end.

(** The same at [u8], for [level] *)
Definition param_level (params : HashMap) : Z :=
  match match hm_get "level" params with Some s => parse_u8 s | None => None end with
  | Some level => level
  | None => 0%Z
  end.

(** [HeosClient::handle_event]: the event sent for an event envelope,
    [None] when none is. The defaults are those of [#[default]]. *)
Definition client_handle_event (response : HeosResponse) : option HeosEvent.t :=
  let command := hdr_command (heos response) in
  let params := parse_message response in
  if String.eqb command "event/player_state_changed" then
    let pid := param_pid params in
    let state := match hm_get "state" params with
                 | Some s => PlayState_from_str s
                 | None => PSUnknown
                 end in
    Some (HeosEvent.PlayerStateChanged pid state)
  else if String.eqb command "event/player_now_playing_changed" then
    Some (HeosEvent.NowPlayingChanged (param_pid params))
  else if String.eqb command "event/player_volume_changed" then
    let pid := param_pid params in
    let level := param_level params in
    let mute := match hm_get "mute" params with
                | Some s => MuteState_from_str s
                | None => MuteOff
                end in
    Some (HeosEvent.VolumeChanged pid level mute)
  else if String.eqb command "event/repeat_mode_changed"
          || String.eqb command "event/shuffle_mode_changed" then
    let pid := param_pid params in
    let repeat := match hm_get "repeat" params with
                  | Some s => RepeatMode_from_str s
                  | None => RepeatOff
                  end in
    let shuffle := match hm_get "shuffle" params with
                   | Some s => ShuffleMode_from_str s
                   | None => ShuffleOff
                   end in
    Some (HeosEvent.PlayModeChanged pid repeat shuffle)
  else if String.eqb command "event/player_queue_changed" then
    Some (HeosEvent.QueueChanged (param_pid params))
  else if String.eqb command "event/players_changed" then
    Some (HeosEvent.PlayersChanged [])
  else None.

(** The reader loop, for one decoded envelope: an event envelope goes
    through [handle_event], any other is forwarded as a [Response]. *)
Definition client_dispatch (response : HeosResponse) : option HeosEvent.t :=
  if is_event response then client_handle_event response
  else Some (HeosEvent.Response response).

(** The event names [handle_event] recognises ([protocol.rs]). *)
Definition handled_event_names : list string :=
  ["event/player_state_changed"; "event/player_now_playing_changed";
   "event/player_volume_changed"; "event/repeat_mode_changed";
   "event/shuffle_mode_changed"; "event/player_queue_changed";
   "event/players_changed"].


(** ** The device's side of an acknowledgement

    A HEOS device answers a command with an envelope whose [command] is
    [<namespace>/<action>] and whose [message] repeats the command's
    parameters, [k1=v1&k2=v2...]. *)

Definition param_string (kv : string * string) : string :=
  let '(k, v) := kv in k ++ "=" ++ v.

Definition ack (c : HeosCommand) : HeosResponse :=
  mkHeosResponse
    (mkHeosHeader (group c ++ "/" ++ command c) (Some "success")
       (Str.join "&" (map param_string (params c))))
    JNull JNull.

(** The value of the last pair with key [k]. *)
Fixpoint assoc_last (k : string) (ps : list (string * string)) : option string :=
  match ps with
  | [] => None
  | (k', v) :: ps' =>
      match assoc_last k ps' with
      | Some x => Some x
      | None => if String.eqb k' k then Some v else None
      end
  end.

(** Parameters the message format carries unambiguously: no [=] or [&] in
    a key, no [&] in a value. *)
Definition message_param_ok (kv : string * string) : bool :=
  let '(k, v) := kv in excludes "=" k && excludes "&" k && excludes "&" v.


(** * Properties *)

(** ** Examples *)

Example avr_mv_two : avr_handle_response "MV45" = Some (MasterVolume 45).
Proof. reflexivity. Qed.
Example avr_mv_three : avr_handle_response "MV455" = Some (MasterVolume 45).
Proof. reflexivity. Qed.
Example avr_mv_max : avr_handle_response "MVMAX 80" = Some (Response "MVMAX 80").
Proof. reflexivity. Qed.
Example avr_si : avr_handle_response "SITV" = Some (InputSource "TV").
Proof. reflexivity. Qed.
Example avr_mv_bad : avr_handle_response "MVxy" = None.
Proof. reflexivity. Qed.
Example e2e_get_volume :
  volume (player_state (handle_heos_event
    (HeosEvent.Response (mk_response "player/get_volume" (Some "success") "pid=1&level=37"))
    sample_app)) = 37%Z.
Proof. reflexivity. Qed.

Example encode_get_volume :
  heos_command_to_string (Protocol.get_volume 1) =
  "heos://player/get_volume?pid=1" ++ String "013" (String "010" EmptyString).
Proof. reflexivity. Qed.

Example decode_get_volume :
  spec_decode_command_line (heos_command_to_string (Protocol.set_volume 1 37))
  = Some (Protocol.set_volume 1 37).
Proof. reflexivity. Qed.

Example discover_sample :
  discover_devices (Ok tt) 5
    [Datagram "HTTP/1.1 200 OK
LOCATION: http://10.0.0.5:60006/upnp/desc/aios_device/aios_device.xml
ST: urn:schemas-denon-com:device:ACT-Denon:1" "10.0.0.5";
     Datagram "SERVER: Linux UPnP/1.0 Sonos" "10.0.0.9";
     Datagram "ST: urn:schemas-denon-com:device:ACT-Denon:1" "10.0.0.5"]
  = Ok [mkDiscoveredDevice "10.0.0.5"
          "http://10.0.0.5:60006/upnp/desc/aios_device/aios_device.xml" None].
Proof. reflexivity. Qed.

(** ** Facts about the string helpers *)

Section StringFacts.

Lemma str_app_assoc (a b c : string) : (a ++ b) ++ c = a ++ (b ++ c).
Proof. induction a as [|x a IH]; simpl; [reflexivity | now rewrite IH]. Qed.

Lemma str_app_nil_r (a : string) : a ++ "" = a.
Proof. induction a as [|x a IH]; simpl; [reflexivity | now rewrite IH]. Qed.

Lemma str_length_app (a b : string) : String.length (a ++ b) = (String.length a + String.length b)%nat.
Proof. induction a as [|x a IH]; simpl; [reflexivity | now rewrite IH]. Qed.

Lemma ascii_eqb_refl' (c : ascii) : Ascii.eqb c c = true.
Proof. apply Ascii.eqb_refl. Qed.

Lemma excludes_app (c : ascii) (a b : string) :
  excludes c (a ++ b) = excludes c a && excludes c b.
Proof. induction a as [|x a IH]; simpl; [reflexivity | rewrite IH; apply andb_assoc]. Qed.

Lemma excludes_head (c x : ascii) (s : string) :
  excludes c (String x s) = true -> Ascii.eqb x c = false /\ excludes c s = true.
Proof.
  simpl; intros H; apply andb_true_iff in H as [H1 H2].
  now apply negb_true_iff in H1.
Qed.

Lemma split_once_sep (c : ascii) (a b : string) :
  excludes c a = true -> Str.split_once c (a ++ String c b) = Some (a, b).
Proof.
  induction a as [|x a IH]; intros H; simpl.
  - now rewrite ascii_eqb_refl'.
  - apply excludes_head in H as [Hx Ha]. now rewrite Hx, (IH Ha).
Qed.

Lemma split_once_excl (c : ascii) (a : string) :
  excludes c a = true -> Str.split_once c a = None.
Proof.
  induction a as [|x a IH]; intros H; simpl; [reflexivity|].
  apply excludes_head in H as [Hx Ha]. now rewrite Hx, (IH Ha).
Qed.

Lemma split_sep (c : ascii) (a b : string) :
  excludes c a = true -> Str.split c (a ++ String c b) = a :: Str.split c b.
Proof.
  induction a as [|x a IH]; intros H; simpl.
  - now rewrite ascii_eqb_refl'.
  - apply excludes_head in H as [Hx Ha]. now rewrite Hx, (IH Ha).
Qed.

Lemma split_excl (c : ascii) (a : string) :
  excludes c a = true -> Str.split c a = [a].
Proof.
  induction a as [|x a IH]; intros H; simpl; [reflexivity|].
  apply excludes_head in H as [Hx Ha]. now rewrite Hx, (IH Ha).
Qed.

(** Splitting at [c] undoes joining with [c] when no part contains [c]. *)
Lemma split_join (c : ascii) (parts : list string) :
  parts <> [] -> forallb (excludes c) parts = true ->
  Str.split c (Str.join (String c "") parts) = parts.
Proof.
  unfold Str.join.
  induction parts as [|p parts IH]; intros Hne Hall; [congruence|].
  simpl in Hall; apply andb_true_iff in Hall as [Hp Hall].
  destruct parts as [|q parts].
  - simpl. now apply split_excl.
  - change (String.concat (String c "") (p :: q :: parts))
      with (p ++ String c (String.concat (String c "") (q :: parts))).
    rewrite (split_sep c p _ Hp), IH; [reflexivity | discriminate | exact Hall].
Qed.

Lemma split_once_some (c : ascii) (s x y : string) :
  Str.split_once c s = Some (x, y) -> excludes c x = true /\ s = x ++ String c y.
Proof.
  revert x y. induction s as [|z s IH]; intros x y H; simpl in H; [discriminate|].
  destruct (Ascii.eqb z c) eqn:Ez.
  - injection H as <- <-. apply Ascii.eqb_eq in Ez; subst z. split; reflexivity.
  - destruct (Str.split_once c s) as [[x' y']|] eqn:Es; [|discriminate].
    injection H as <- <-. destruct (IH x' y' eq_refl) as [Hx ->].
    split; [simpl; rewrite Ez, Hx; reflexivity | reflexivity].
Qed.

Lemma split_once_none (c : ascii) (s : string) :
  Str.split_once c s = None -> excludes c s = true.
Proof.
  induction s as [|z s IH]; intros H; [reflexivity|].
  simpl in H. simpl. destruct (Ascii.eqb z c); [discriminate|].
  simpl. apply IH. destruct (Str.split_once c s) as [[]|]; [discriminate | reflexivity].
Qed.

Lemma split_nonempty (c : ascii) (s : string) : Str.split c s <> [].
Proof.
  destruct s as [|z s]; simpl; [discriminate|].
  destruct (Ascii.eqb z c); [discriminate|]. destruct (Str.split c s); discriminate.
Qed.

Lemma split_length_pos (c : ascii) (s : string) : (1 <= List.length (Str.split c s))%nat.
Proof.
  destruct (Str.split c s) eqn:E; [exfalso; exact (split_nonempty c s E) | simpl; lia].
Qed.

Lemma split_app_sep (c : ascii) (x y : string) :
  Str.split c (x ++ String c y) = (Str.split c x ++ Str.split c y)%list.
Proof.
  induction x as [|z x IH]; simpl.
  - rewrite ascii_eqb_refl'. reflexivity.
  - destruct (Ascii.eqb z c); rewrite IH; [reflexivity|].
    destruct (Str.split c x) as [|h t] eqn:E; [exfalso; exact (split_nonempty c x E)|].
    reflexivity.
Qed.

Lemma split_length_one (c : ascii) (s : string) :
  List.length (Str.split c s) = 1%nat -> excludes c s = true.
Proof.
  induction s as [|z s IH]; intros H; [reflexivity|].
  simpl in H. simpl. destruct (Ascii.eqb z c).
  - exfalso. pose proof (split_length_pos c s). simpl in H. lia.
  - simpl. apply IH.
    destruct (Str.split c s) as [|h t] eqn:E; [exfalso; exact (split_nonempty c s E) | exact H].
Qed.

Lemma split_join_length (c : ascii) (xs : list string) :
  xs <> [] -> (List.length xs <= List.length (Str.split c (Str.join (String c "") xs)))%nat.
Proof.
  unfold Str.join.
  induction xs as [|x xs IH]; intros Hne; [congruence|].
  destruct xs as [|y xs].
  - apply split_length_pos.
  - change (String.concat (String c "") (x :: y :: xs))
      with (x ++ String c (String.concat (String c "") (y :: xs))).
    rewrite split_app_sep, length_app.
    specialize (IH ltac:(discriminate)). pose proof (split_length_pos c x).
    cbn [List.length] in *. lia.
Qed.

Lemma str_app_inv_l (a b c : string) : a ++ b = a ++ c -> b = c.
Proof.
  induction a as [|x a IH]; simpl; intros H; [exact H|].
  injection H as H. exact (IH H).
Qed.

Lemma strip_crlf_app (s : string) :
  strip_crlf (s ++ String "013" (String "010" EmptyString)) = Some s.
Proof.
  induction s as [|x s IH]; [reflexivity|].
  simpl (String x s ++ _). unfold strip_crlf; fold strip_crlf.
  destruct (String.eqb_spec (String x (s ++ String "013" (String "010" EmptyString)))
              (String "013" (String "010" EmptyString))) as [E|_].
  - apply (f_equal String.length) in E. simpl in E.
    rewrite str_length_app in E. simpl in E. lia.
  - now rewrite IH.
Qed.

(** [String.prefix] and [Str.contains] as statements about appends. *)
Lemma prefix_iff (p s : string) :
  String.prefix p s = true <-> exists t, s = p ++ t.
Proof.
  revert s; induction p as [|x p IH]; intros s; simpl.
  - split; [now exists s | intros _; now destruct s].
  - destruct s as [|y s]; simpl.
    + split; [discriminate | intros [t Ht]; discriminate].
    + destruct (ascii_dec x y) as [<-|Hxy].
      * rewrite IH. split; intros [t Ht]; exists t; congruence.
      * split; [discriminate | intros [t Ht]; congruence].
Qed.






End StringFacts.

(** ** Codec A command lines *)

Section CommandLines.

Lemma strip_prefix_app (p s : string) : strip_prefix p (p ++ s) = Some s.
Proof.
  induction p as [|x p IH]; simpl; [now destruct s|].
  now rewrite ascii_eqb_refl'.
Qed.

Let kv : string * string -> string := fun '(k, v) => k ++ "=" ++ v.

Let param_ok : string * string -> bool :=
  fun '(k, v) => excludes "=" k && excludes "&" k && excludes "&" v.

Lemma params_excl_amp (ps : list (string * string)) :
  forallb param_ok ps = true -> forallb (excludes "&") (map kv ps) = true.
Proof.
  induction ps as [|[k v] ps IH]; simpl; [reflexivity|].
  intros H; apply andb_true_iff in H as [Hkv Hps].
  apply andb_true_iff in Hkv as [Hk Hv]; apply andb_true_iff in Hk as [_ Hk].
  rewrite excludes_app, Hk. simpl. rewrite Hv, IH by exact Hps. reflexivity.
Qed.

Lemma decode_params_map (ps : list (string * string)) :
  forallb param_ok ps = true -> decode_params (map kv ps) = Some ps.
Proof.
  induction ps as [|[k v] ps IH]; simpl; [reflexivity|].
  intros H; apply andb_true_iff in H as [Hkv Hps].
  apply andb_true_iff in Hkv as [Hk _]; apply andb_true_iff in Hk as [Hk _].
  rewrite (split_once_sep "=" k v Hk), IH by exact Hps. reflexivity.
Qed.

(** The encoding written out, with the association of the appends
    flattened. *)
Lemma heos_command_to_string_eq (c : HeosCommand) :
  heos_command_to_string c =
  "heos://" ++ group c ++ "/" ++ command c
  ++ (match params c with
      | [] => ""
      | ps => "?" ++ Str.join "&" (map kv ps)
      end)
  ++ String "013" (String "010" EmptyString).
Proof.
  destruct c as [g a ps]. unfold heos_command_to_string. cbn [group command params].
  destruct ps as [|p ps].
  - rewrite !str_app_assoc. reflexivity.
  - rewrite !str_app_assoc. reflexivity.
Qed.

Lemma decode_encode (c : HeosCommand) :
  unambiguous c = true -> spec_decode_command_line (heos_command_to_string c) = Some c.
Proof.
  intros H. rewrite heos_command_to_string_eq.
  destruct c as [g a ps]. unfold unambiguous in H. cbn [group command params] in *.
  apply andb_true_iff in H as [H Hps]; apply andb_true_iff in H as [Hg Ha].
  unfold spec_decode_command_line. rewrite strip_prefix_app.
  destruct ps as [|p ps'].
  - assert (E : g ++ "/" ++ a ++ "" ++ String "013" (String "010" EmptyString)
                = (g ++ String "/" a) ++ String "013" (String "010" EmptyString)).
    { rewrite !str_app_assoc. reflexivity. }
    rewrite E, strip_crlf_app, (split_once_sep "/" g _ Hg), (split_once_excl "?" a Ha).
    reflexivity.
  - set (J := Str.join "&" (map kv (p :: ps'))).
    assert (E : g ++ "/" ++ a ++ ("?" ++ J) ++ String "013" (String "010" EmptyString)
                = (g ++ String "/" (a ++ String "?" J))
                  ++ String "013" (String "010" EmptyString)).
    { rewrite !str_app_assoc. simpl. rewrite !str_app_assoc. reflexivity. }
    rewrite E, strip_crlf_app, (split_once_sep "/" g _ Hg), (split_once_sep "?" a _ Ha).
    subst J. change "&" with (String "&" "").
    rewrite split_join by (discriminate || now apply params_excl_amp).
    rewrite decode_params_map by exact Hps. reflexivity.
Qed.

Lemma decode_params_length (l : list string) (m : list (string * string)) :
  decode_params l = Some m -> List.length m = List.length l.
Proof.
  revert m. induction l as [|p l IH]; intros m H; simpl in H.
  - injection H as <-. reflexivity.
  - destruct (Str.split_once "=" p) as [kv'|]; [|discriminate].
    destruct (decode_params l) as [kvs|] eqn:E; [|discriminate].
    injection H as <-. simpl. rewrite (IH kvs eq_refl). reflexivity.
Qed.

Lemma decode_params_app (l1 l2 : list string) (m : list (string * string)) :
  decode_params (l1 ++ l2) = Some m ->
  exists m1 m2, decode_params l1 = Some m1 /\ decode_params l2 = Some m2 /\ m = (m1 ++ m2)%list.
Proof.
  revert m. induction l1 as [|p l1 IH]; intros m H.
  - exists [], m. split; [reflexivity | split; [exact H | reflexivity]].
  - simpl in H. simpl.
    destruct (Str.split_once "=" p) as [kv'|]; [|discriminate].
    destruct (decode_params (l1 ++ l2)) as [kvs|] eqn:E; [|discriminate].
    injection H as <-. destruct (IH kvs eq_refl) as (m1 & m2 & H1 & H2 & ->).
    rewrite H1. exists (kv' :: m1), m2. split; [reflexivity | split; [exact H2 | reflexivity]].
Qed.

Lemma param_ok_of_decode (p : string * string) :
  decode_params (Str.split "&" (kv p)) = Some [p] -> param_ok p = true.
Proof.
  intros H. pose proof (decode_params_length _ _ H) as Hl. cbn [List.length] in Hl.
  assert (Hx : excludes "&" (kv p) = true) by (apply split_length_one; lia).
  rewrite (split_excl _ _ Hx) in H. destruct p as [k v]. cbv [kv param_ok] in *.
  cbn [decode_params] in H.
  destruct (Str.split_once "=" (k ++ "=" ++ v)) as [[k' v']|] eqn:Es; [|discriminate].
  injection H as -> ->. apply split_once_some in Es as [Hk _].
  rewrite excludes_app in Hx. apply andb_true_iff in Hx as [Hxk Hxv].
  cbn in Hxv. rewrite Hk, Hxk, Hxv. reflexivity.
Qed.

(** The spec's reading recovers the parameters of a joined query only when
    no key holds [=] or [&] and no value holds [&]. *)
Lemma decode_params_join_inv (ps : list (string * string)) :
  ps <> [] -> decode_params (Str.split "&" (Str.join "&" (map kv ps))) = Some ps ->
  forallb param_ok ps = true.
Proof.
  induction ps as [|p ps IH]; intros Hne H; [congruence|].
  destruct ps as [|q ps].
  - change (Str.join "&" (map kv [p])) with (kv p) in H.
    cbn [forallb]. rewrite (param_ok_of_decode p H). reflexivity.
  - change (Str.join "&" (map kv (p :: q :: ps)))
      with (kv p ++ String "&" (Str.join "&" (map kv (q :: ps)))) in H.
    rewrite split_app_sep in H.
    apply decode_params_app in H as (m1 & m2 & H1 & H2 & Hm).
    pose proof (decode_params_length _ _ H1) as L1.
    pose proof (decode_params_length _ _ H2) as L2.
    pose proof (split_length_pos "&" (kv p)) as P1.
    pose proof (split_join_length "&" (map kv (q :: ps)) ltac:(discriminate)) as P2.
    rewrite length_map in P2.
    pose proof (f_equal (@List.length _) Hm) as Lm. rewrite length_app in Lm.
    cbn [List.length] in *.
    destruct m1 as [|p1 [|p2 m1]]; cbn [List.length] in *; try lia.
    injection Hm as <- <-.
    change (param_ok p && forallb param_ok (q :: ps) = true).
    rewrite (param_ok_of_decode p H1), (IH ltac:(discriminate) H2).
    reflexivity.
Qed.

(** Decoding gives the command back only if it is unambiguous. *)
Lemma encode_decode_unambiguous (c : HeosCommand) :
  spec_decode_command_line (heos_command_to_string c) = Some c -> unambiguous c = true.
Proof.
  rewrite heos_command_to_string_eq.
  destruct c as [g a ps]. cbn [group command params].
  unfold spec_decode_command_line. rewrite strip_prefix_app. cbn beta iota.
  assert (E : forall X, g ++ "/" ++ a ++ X ++ String "013" (String "010" EmptyString)
                        = (g ++ String "/" (a ++ X)) ++ String "013" (String "010" EmptyString)).
  { intros X. rewrite !str_app_assoc. simpl. rewrite !str_app_assoc. reflexivity. }
  rewrite E, strip_crlf_app. cbn beta iota.
  match goal with
  | |- context [Str.split_once "/" ?b] =>
      destruct (Str.split_once "/" b) as [[g' r2]|] eqn:Hs; [|discriminate]
  end.
  apply split_once_some in Hs as [Hg' Hb].
  destruct (Str.split_once "?" r2) as [[act q]|] eqn:Hq.
  - destruct (decode_params (Str.split "&" q)) as [ps'|] eqn:Hd; cbn beta iota;
      [|discriminate].
    intros H. injection H as -> -> ->.
    apply split_once_some in Hq as [Ha' Hr2].
    unfold unambiguous. cbn [group command params]. rewrite Hg', Ha'. cbn [andb].
    destruct ps as [|p ps0]; [reflexivity|].
    apply str_app_inv_l in Hb. injection Hb as Hb. rewrite Hr2 in Hb.
    apply str_app_inv_l in Hb. injection Hb as Hb. subst q.
    exact (decode_params_join_inv (p :: ps0) ltac:(discriminate) Hd).
  - intros H. injection H as -> -> <-.
    unfold unambiguous. cbn [group command params].
    rewrite Hg', (split_once_none _ _ Hq). reflexivity.
Qed.

End CommandLines.

(** ** Codec B: the volume reply *)

Section AvrDecoding.

Lemma digit_of_range (c : ascii) (x : Z) : digit_of c = Some x -> (0 <= x <= 9)%Z.
Proof.
  unfold digit_of. destruct ((48 <=? nat_of_ascii c)%nat && (nat_of_ascii c <=? 57)%nat) eqn:E;
    [|discriminate].
  apply andb_true_iff in E as [E1 E2]; apply Nat.leb_le in E1, E2.
  intros H; injection H as <-. lia.
Qed.

(** A digit is neither sign, so [parse_u8] reads it as a digit string. *)
Lemma parse_u8_digit (c : ascii) (x : Z) (rest : string) :
  digit_of c = Some x -> parse_u8 (String c rest) = digits_value 255 0 (String c rest).
Proof.
  intros H. destruct c as [[] [] [] [] [] [] [] []]; simpl in H; try discriminate H;
    reflexivity.
Qed.

Lemma digit_not_M (c : ascii) (x : Z) (rest : string) :
  digit_of c = Some x -> String.prefix "MAX" (String c rest) = false.
Proof.
  intros H. destruct (String.prefix "MAX" (String c rest)) eqn:E; [|reflexivity].
  apply prefix_iff in E as [t Ht]. injection Ht as -> _. discriminate H.
Qed.

Lemma digits_value_step (bound acc : Z) (c : ascii) (d : Z) (s : string) :
  digit_of c = Some d -> (acc * 10 + d <= bound)%Z ->
  digits_value bound acc (String c s) = digits_value bound (acc * 10 + d) s.
Proof.
  intros Hd Hb. simpl. rewrite Hd.
  destruct (Z.ltb_spec bound (acc * 10 + d)); [lia | reflexivity].
Qed.

Lemma digits_value_overflow (bound acc : Z) (c : ascii) (d : Z) (s : string) :
  digit_of c = Some d -> (bound < acc * 10 + d)%Z ->
  digits_value bound acc (String c s) = None.
Proof.
  intros Hd Hb. simpl. rewrite Hd.
  destruct (Z.ltb_spec bound (acc * 10 + d)); [reflexivity | lia].
Qed.

(** A line [MV<s>] with [s] not starting with [MAX]. *)
Lemma avr_mv (s : string) :
  String.prefix "MAX" s = false ->
  avr_handle_response ("MV" ++ s) =
  match parse_u8 s with
  | Some vol => Some (MasterVolume vol)
  | None =>
      if (String.length s =? 3)%nat then
        match parse_u8 (Str.take 2 s) with
        | Some vol => Some (MasterVolume vol)
        | None => None
        end
      else None
  end.
Proof.
  intros Hmax.
  assert (H2 : Str.starts_with "MVMAX" ("MV" ++ s) = String.prefix "MAX" s) by reflexivity.
  assert (H1 : Str.starts_with "MV" ("MV" ++ s) = true) by (destruct s; reflexivity).
  unfold avr_handle_response. rewrite H1, H2, Hmax. reflexivity.
Qed.

End AvrDecoding.

(** * The claims *)

(** ** Codec B volume replies *)

(** C2 (as stated, refuted): a line [MV<suffix>] gives the level of a
    2-digit suffix, the first two digits of a 3-digit suffix, and nothing
    otherwise. The decoder first tries the whole suffix as a [u8]: the
    3-digit suffix [125] gives 125 rather than 12, and the 1-digit suffix
    [5] gives 5 rather than no event. *)
Lemma C2_volume_counterexample :
  avr_handle_response "MV125" = Some (MasterVolume 125)
  /\ avr_handle_response "MV5" = Some (MasterVolume 5).
Proof. split; reflexivity. Qed.

(** C2 (as amended): for a line [MV<s>] that does not start with [MVMAX],
    a 2-digit [s] gives its value; a 3-digit [s] whose value exceeds 255
    gives the number formed by its first two digits; an [s] of any length
    other than 3 gives its value when Rust's [u8] parser accepts it and no
    event otherwise. *)
Theorem C2_volume_decoding :
  (forall d1 d2 x1 x2,
      digit_of d1 = Some x1 -> digit_of d2 = Some x2 ->
      avr_handle_response ("MV" ++ String d1 (String d2 ""))
      = Some (MasterVolume (10 * x1 + x2)))
  /\ (forall d1 d2 d3 x1 x2 x3,
      digit_of d1 = Some x1 -> digit_of d2 = Some x2 -> digit_of d3 = Some x3 ->
      (255 < 100 * x1 + 10 * x2 + x3)%Z ->
      avr_handle_response ("MV" ++ String d1 (String d2 (String d3 "")))
      = Some (MasterVolume (10 * x1 + x2)))
  /\ (forall s,
      String.prefix "MAX" s = false -> String.length s <> 3%nat ->
      avr_handle_response ("MV" ++ s)
      = match parse_u8 s with
        | Some v => Some (MasterVolume v)
        | None => None
        end).
Proof.
  split; [|split].
  - intros d1 d2 x1 x2 H1 H2.
    pose proof (digit_of_range _ _ H1); pose proof (digit_of_range _ _ H2).
    rewrite (avr_mv _ (digit_not_M _ _ _ H1)), (parse_u8_digit _ _ _ H1).
    rewrite (digits_value_step _ _ _ _ _ H1) by lia.
    rewrite (digits_value_step _ _ _ _ _ H2) by lia.
    cbn [digits_value]. replace ((0 * 10 + x1) * 10 + x2)%Z with (10 * x1 + x2)%Z by lia.
    reflexivity.
  - intros d1 d2 d3 x1 x2 x3 H1 H2 H3 Hbig.
    pose proof (digit_of_range _ _ H1); pose proof (digit_of_range _ _ H2);
      pose proof (digit_of_range _ _ H3).
    rewrite (avr_mv _ (digit_not_M _ _ _ H1)), (parse_u8_digit _ _ _ H1).
    rewrite (digits_value_step _ _ _ _ _ H1) by lia.
    rewrite (digits_value_step _ _ _ _ _ H2) by lia.
    rewrite (digits_value_overflow _ _ _ _ _ H3) by lia.
    simpl Str.take. simpl String.length. cbn iota beta.
    rewrite (parse_u8_digit _ _ _ H1).
    rewrite (digits_value_step _ _ _ _ _ H1) by lia.
    rewrite (digits_value_step _ _ _ _ _ H2) by lia.
    cbn [digits_value]. replace ((0 * 10 + x1) * 10 + x2)%Z with (10 * x1 + x2)%Z by lia.
    reflexivity.
  - intros s Hmax Hlen. rewrite (avr_mv _ Hmax).
    destruct (parse_u8 s); [reflexivity|].
    apply Nat.eqb_neq in Hlen. now rewrite Hlen.
Qed.

(** C2 witness: the amended statement at [MV45], [MV455] and [MV5]. *)
Lemma C2_volume_decoding_witness :
  avr_handle_response "MV45" = Some (MasterVolume 45)
  /\ avr_handle_response "MV455" = Some (MasterVolume 45)
  /\ avr_handle_response "MV5" = Some (MasterVolume 5).
Proof.
  destruct C2_volume_decoding as [Htwo [Hthree Hother]].
  split; [|split].
  - exact (Htwo "4"%char "5"%char 4%Z 5%Z eq_refl eq_refl).
  - refine (Hthree "4"%char "5"%char "5"%char 4%Z 5%Z 5%Z eq_refl eq_refl eq_refl _).
    lia.
  - exact (Hother "5" eq_refl ltac:(discriminate)).
Defined.

(** C9: every line starting with [MVMAX] is forwarded whole as a raw
    [Response] event, neither read as a volume nor dropped. *)
Theorem C9_mvmax_forwarded (s : string) :
  avr_handle_response ("MVMAX" ++ s) = Some (Response ("MVMAX" ++ s)).
Proof. destruct s; reflexivity. Qed.

(** ** Codec A *)

(** C7: [is_event] holds exactly when the result flag is absent, and
    [is_success] exactly when it is present and equal to [success]. *)
Theorem C7_is_event_is_success (r : HeosResponse) :
  (is_event r = true <-> hdr_result (heos r) = None)
  /\ (is_success r = true <-> hdr_result (heos r) = Some "success").
Proof.
  destruct r as [[cmd [res|] msg] p o]; unfold is_event, is_success; cbn.
  - split; [split; discriminate|].
    rewrite String.eqb_eq. split; [now intros -> | now intros [= ->]].
  - split; [split; reflexivity | split; discriminate].
Qed.

(** C5 (as stated, refuted): decoding an encoded command recovers its
    namespace, action and parameters. The encoder escapes nothing, so a
    value holding [&] and [=] encodes like two parameters: two different
    commands share one line, and no reading of the line recovers both. *)
Lemma C5_encoding_not_injective :
  mkHeosCommand "player" "set_volume" [("pid", "1&level=5")]
  <> mkHeosCommand "player" "set_volume" [("pid", "1"); ("level", "5")]
  /\ heos_command_to_string (mkHeosCommand "player" "set_volume" [("pid", "1&level=5")])
     = heos_command_to_string
         (mkHeosCommand "player" "set_volume" [("pid", "1"); ("level", "5")]).
Proof. split; [discriminate | reflexivity]. Qed.

(** C5 (as amended): every command encodes to
    [heos://<namespace>/<action>], then [?] and the [&]-joined [key=value]
    pairs in order when there are parameters, then CR LF; and the spec's
    reading of the line gives the command back exactly when the namespace
    has no [/], the action no [?], no key an [=] or [&] and no value an
    [&]. *)
Theorem C5_encode_then_decode (c : HeosCommand) :
  heos_command_to_string c =
    "heos://" ++ group c ++ "/" ++ command c
    ++ (match params c with
        | [] => ""
        | ps => "?" ++ Str.join "&" (map (fun '(k, v) => k ++ "=" ++ v) ps)
        end)
    ++ String "013" (String "010" EmptyString)
  /\ (unambiguous c = true <-> spec_decode_command_line (heos_command_to_string c) = Some c).
Proof.
  split; [apply heos_command_to_string_eq|].
  split; [apply decode_encode | apply encode_decode_unambiguous].
Qed.

(** ** The reconciler *)

Lemma is_current_pid_true (a : App) (pid : Z) :
  is_current_pid a pid = true <-> current_pid a = Some pid.
Proof.
  unfold is_current_pid. destruct (current_pid a) as [p|]; [|split; discriminate].
  rewrite Z.eqb_eq. split; [now intros -> | now intros [= ->]].
Qed.

(** An event about another device than the active one changes nothing. *)
Lemma event_other_pid_noop (ev : HeosEvent.t) (a : App) (pid : Z) :
  heos_event_pid ev = Some pid -> current_pid a <> Some pid ->
  handle_heos_event ev a = a.
Proof.
  intros Hpid Hne.
  assert (Hf : is_current_pid a pid = false).
  { destruct (is_current_pid a pid) eqn:E; [|reflexivity].
    exfalso; apply Hne, is_current_pid_true, E. }
  destruct ev; cbn in Hpid; try discriminate Hpid; injection Hpid as <-;
    cbn [handle_heos_event]; try rewrite Hf; reflexivity.
Qed.

(** C3: applying a decoded player event ([PlayerStateChanged],
    [NowPlayingChanged], [VolumeChanged], [PlayModeChanged],
    [QueueChanged]) whose pid is not the active player's leaves the whole
    application state, the player state included, unchanged. *)
Theorem C3_other_pid_event_frame (ev : HeosEvent.t) (a : App) (pid : Z)
    (Hpid : heos_event_pid ev = Some pid) (Hne : current_pid a <> Some pid) :
  handle_heos_event ev a = a /\ player_state (handle_heos_event ev a) = player_state a.
Proof.
  rewrite (event_other_pid_noop ev a pid Hpid Hne). split; reflexivity.
Qed.

(** C3 witness: a volume event for player 2 while player 1 is active. *)
Lemma C3_other_pid_event_frame_witness :
  heos_event_pid (HeosEvent.VolumeChanged 2 80 MuteOn) = Some 2%Z
  /\ current_pid sample_app <> Some 2%Z
  /\ handle_heos_event (HeosEvent.VolumeChanged 2 80 MuteOn) sample_app = sample_app.
Proof.
  split; [reflexivity | split; [discriminate |]].
  exact (proj1 (C3_other_pid_event_frame (HeosEvent.VolumeChanged 2 80 MuteOn) sample_app 2
                  eq_refl ltac:(discriminate))).
Defined.

(** C1 (as stated, refuted): events and command responses carrying a pid
    change the player state only when the pid is the active player's.
    [handle_response] compares no pid: a successful [get_play_state]
    response for player 2 sets the play state while player 1 is active. *)
Lemma C1_response_other_pid_applied :
  current_pid sample_app = Some 1%Z
  /\ play_state (player_state sample_app) = PSUnknown
  /\ play_state (player_state (handle_heos_event
       (HeosEvent.Response
          (mk_response "player/get_play_state" (Some "success") "pid=2&state=play"))
       sample_app)) = Play.
Proof. split; [|split]; reflexivity. Qed.

(** C1 (as amended): a decoded event carrying a pid changes the player
    state only when that pid is the active player's; a successful
    [get_play_state] or [get_volume] response is applied from its message
    alone, whatever pid the message names and whichever player is active. *)
Theorem C1_pid_gate (a : App) :
  (forall ev pid, heos_event_pid ev = Some pid ->
     player_state (handle_heos_event ev a) <> player_state a ->
     current_pid a = Some pid)
  /\ (forall msg p o,
       handle_heos_event
         (HeosEvent.Response
            (mkHeosResponse (mkHeosHeader "player/get_play_state" (Some "success") msg) p o)) a
       = match hm_get "state" (parse_message_string msg) with
         | Some st => update_player_state a (fun s => with_play_state s (PlayState_from_str st))
         | None => a
         end)
  /\ (forall msg p o,
       handle_heos_event
         (HeosEvent.Response
            (mkHeosResponse (mkHeosHeader "player/get_volume" (Some "success") msg) p o)) a
       = match match hm_get "level" (parse_message_string msg) with
               | Some s => parse_u8 s
               | None => None
               end with
         | Some level => update_player_state a (fun s => with_volume s level)
         | None => a
         end).
Proof.
  split; [|split].
  - intros ev pid Hpid Hch.
    destruct (is_current_pid a pid) eqn:E; [now apply is_current_pid_true|].
    exfalso; apply Hch. rewrite (event_other_pid_noop ev a pid Hpid); [reflexivity|].
    intros Hc. apply is_current_pid_true in Hc. congruence.
  - intros msg p o. reflexivity.
  - intros msg p o. reflexivity.
Qed.

(** C4: a command response whose result flag is present but is not
    [success] changes nothing but the status message, which it can only set
    to an [Error: ...] line. *)
Theorem C4_failed_response_frame (r : HeosResponse) (a : App) (res : string)
    (Hres : hdr_result (heos r) = Some res) (Hfail : res <> "success") :
  with_status_message (handle_heos_event (HeosEvent.Response r) a) (status_message a) = a
  /\ (status_message (handle_heos_event (HeosEvent.Response r) a) = status_message a
      \/ exists text,
           status_message (handle_heos_event (HeosEvent.Response r) a)
           = Some ("Error: " ++ text)).
Proof.
  assert (Hs : is_success r = false).
  { unfold is_success. rewrite Hres. now apply String.eqb_neq. }
  cbn [handle_heos_event]. unfold handle_response. rewrite Hs. cbn [negb].
  destruct (hm_get "text" (parse_message r)) as [text|].
  - split; [destruct a; reflexivity | right; now exists text].
  - split; [destruct a; reflexivity | now left].
Qed.

(** C4 witness: a failed [get_volume] with a diagnostic text. *)
Lemma C4_failed_response_frame_witness :
  with_status_message
    (handle_heos_event
       (HeosEvent.Response
          (mk_response "player/get_volume" (Some "fail") "eid=2&text=ID Not Valid&pid=7"))
       sample_app) None = sample_app.
Proof.
  exact (proj1 (C4_failed_response_frame
                  (mk_response "player/get_volume" (Some "fail") "eid=2&text=ID Not Valid&pid=7")
                  sample_app "fail" eq_refl ltac:(discriminate))).
Defined.

(** ** Selecting a player *)

(** C6: for an index inside the roster, [select_player] makes it the
    active index, resets the player state to its default apart from the
    identity of the newly selected player, and leaves the roster as it
    was. *)
Theorem C6_select_player_in_range (a : App) (idx : nat)
    (Hidx : (idx < length (players a))%nat) :
  let a' := fst (fst (select_player a idx)) in
  current_player_idx a' = idx
  /\ player_state a' = with_player PlayerState_default (nth_error (players a) idx)
  /\ nth_error (players a) idx <> None
  /\ players a' = players a.
Proof.
  unfold select_player. apply Nat.ltb_lt in Hidx as Hlt. rewrite Hlt.
  cbn [players with_player_state with_current_player_idx].
  assert (Hsome : nth_error (players a) idx <> None) by now apply nth_error_Some.
  destruct (nth_error (players a) idx) as [p|] eqn:Ep; [|contradiction].
  match goal with
  | |- context [refresh_player_state ?x] => destruct (refresh_player_state x) as [sent r]
  end.
  cbn. repeat split; [assumption].
Qed.

(** C6 witness: selecting the second of two players. *)
Lemma C6_select_player_in_range_witness :
  (1 < length (players sample_app))%nat
  /\ player_state (fst (fst (select_player sample_app 1)))
     = with_player PlayerState_default (Some (sample_player 2 "Living Room")).
Proof.
  split; [cbn; lia|].
  exact (proj1 (proj2 (C6_select_player_in_range sample_app 1 ltac:(cbn; lia)))).
Defined.

(** C10: for an index past the roster, [select_player] returns [Ok],
    queues no command and leaves the state as it was. *)
Theorem C10_select_player_out_of_range (a : App) (idx : nat)
    (Hidx : (length (players a) <= idx)%nat) :
  select_player a idx = (a, [], Ok tt).
Proof.
  unfold select_player.
  destruct (Nat.ltb_spec idx (length (players a))); [lia | reflexivity].
Qed.

(** C10 witness: index 2 with two players. *)
Lemma C10_select_player_out_of_range_witness :
  select_player sample_app 2 = (sample_app, [], Ok tt).
Proof. exact (C10_select_player_out_of_range sample_app 2 ltac:(cbn; lia)). Defined.

(** ** Discovery *)

Section Discovery.








End Discovery.



(** * Further properties of the code

    The surround modes and the AVR command channel ([avr.rs]), the enum
    names ([types.rs]), the player and AVR actions, the views and
    [handle_avr_event] of [App] ([app.rs]), the event classifier of the
    HEOS reader ([client.rs]) and [discover_first_device]. *)


Section CaseFacts.

Lemma upper_char_ws (c : ascii) : Str.is_ws (Str.upper_char c) = Str.is_ws c.
Proof. destruct c as [[] [] [] [] [] [] [] []]; reflexivity. Qed.

Lemma map_chars_trim_start (f : ascii -> ascii) (s : string) :
  (forall c, Str.is_ws (f c) = Str.is_ws c) ->
  Str.map_chars f (Str.trim_start s) = Str.trim_start (Str.map_chars f s).
Proof.
  intros Hf. induction s as [|c s IH]; [reflexivity|].
  cbn [Str.trim_start Str.map_chars]. rewrite Hf.
  destruct (Str.is_ws c); [exact IH | reflexivity].
Qed.

Lemma list_ascii_map_chars (f : ascii -> ascii) (s : string) :
  list_ascii_of_string (Str.map_chars f s) = map f (list_ascii_of_string s).
Proof. induction s as [|c s IH]; simpl; [reflexivity | now rewrite IH]. Qed.

Lemma string_of_list_map (f : ascii -> ascii) (l : list ascii) :
  string_of_list_ascii (map f l) = Str.map_chars f (string_of_list_ascii l).
Proof. induction l as [|c l IH]; simpl; [reflexivity | now rewrite IH]. Qed.

Lemma map_chars_rev_str (f : ascii -> ascii) (s : string) :
  Str.map_chars f (Str.rev_str s) = Str.rev_str (Str.map_chars f s).
Proof.
  unfold Str.rev_str. rewrite list_ascii_map_chars, <- map_rev, string_of_list_map.
  reflexivity.
Qed.

Lemma map_chars_trim (f : ascii -> ascii) (s : string) :
  (forall c, Str.is_ws (f c) = Str.is_ws c) ->
  Str.map_chars f (Str.trim s) = Str.trim (Str.map_chars f s).
Proof.
  intros Hf. unfold Str.trim.
  rewrite map_chars_rev_str, map_chars_trim_start, map_chars_rev_str, map_chars_trim_start
    by exact Hf.
  reflexivity.
Qed.

End CaseFacts.

(** X1: [SurroundMode::from_response] ignores case: two replies that agree once
    upper-cased name the same mode (or none). *)
Theorem surround_from_response_case_insensitive (s t : string) :
  Str.to_uppercase s = Str.to_uppercase t ->
  SurroundMode.from_response s = SurroundMode.from_response t.
Proof.
  intros H. unfold SurroundMode.from_response.
  unfold Str.to_uppercase in *.
  rewrite !map_chars_trim by exact upper_char_ws. rewrite H. reflexivity.
Qed.

Lemma surround_from_response_case_insensitive_witness :
  Str.to_uppercase "mch stereo" = Str.to_uppercase "MCH Stereo"
  /\ SurroundMode.from_response "mch stereo" = SurroundMode.from_response "MCH Stereo".
Proof.
  split; [reflexivity|].
  exact (surround_from_response_case_insensitive "mch stereo" "MCH Stereo" eq_refl).
Defined.

(** X2: the line [set_surround_mode] queues on an open AVR channel, read back by
    the AVR reader, is a [SurroundMode] event whose text [from_response]
    maps back to the same mode, for each of the sixteen modes. *)
Theorem surround_command_echo (h : AvrHandle) (m : SurroundMode.t) :
  avr_cmd_tx_open h = true ->
  exists line rest,
    send_raw h (AvrCmd.set_surround_mode m) = ([line], Ok tt)
    /\ avr_read_line line = Some (SurroundMode rest)
    /\ SurroundMode.from_response rest = Some m.
Proof.
  intros Ho. unfold send_raw. rewrite Ho.
  eexists; exists (Str.drop 2 (SurroundMode.command m)). split; [reflexivity|].
  destruct m; split; vm_compute; reflexivity.
Qed.

Lemma surround_command_echo_witness :
  avr_cmd_tx_open (mkAvrHandle true) = true
  /\ exists line rest,
       send_raw (mkAvrHandle true) (AvrCmd.set_surround_mode SurroundMode.MultiChStereo)
       = ([line], Ok tt)
       /\ avr_read_line line = Some (SurroundMode rest)
       /\ SurroundMode.from_response rest = Some SurroundMode.MultiChStereo.
Proof.
  split; [reflexivity|].
  exact (surround_command_echo (mkAvrHandle true) SurroundMode.MultiChStereo eq_refl).
Defined.

(** X3: [from_response] reads back the display name of every surround mode
    except Multi Ch Stereo, whose display name it does not recognise. *)
Theorem surround_display_name_parse (m : SurroundMode.t) :
  SurroundMode.from_response (SurroundMode.display_name m) = Some m
  <-> m <> SurroundMode.MultiChStereo.
Proof. destruct m; vm_compute; split; congruence. Qed.

(** X4: after the AVR echoes a mode's command, the surround popup marks that
    mode as current exactly when it is not Multi Ch Stereo; for Multi Ch
    Stereo it marks Stereo instead. *)
Theorem surround_popup_marker (a : App) (m : SurroundMode.t) :
  match avr_read_line (SurroundMode.command m ++ String "013" EmptyString) with
  | Some e =>
      let s := surround_mode (avr_state (handle_avr_event e a)) in
      (is_current_mode s m = true <-> m <> SurroundMode.MultiChStereo)
      /\ (m = SurroundMode.MultiChStereo -> is_current_mode s SurroundMode.Stereo = true)
  | None => False
  end.
Proof.
  destruct m; vm_compute; (split; [split; congruence | intros; (discriminate || reflexivity)]).
Qed.

(** X5: for the play state, mute, repeat and shuffle enums, [from_str] of
    [as_str] gives back the value. *)
Theorem enum_str_round_trip :
  (forall s, PlayState_from_str (PlayState_as_str s) = s)
  /\ (forall m, MuteState_from_str (MuteState_as_str m) = m)
  /\ (forall r, RepeatMode_from_str (RepeatMode_as_str r) = r)
  /\ (forall s, ShuffleMode_from_str (ShuffleMode_as_str s) = s).
Proof. repeat split; intros []; reflexivity. Qed.

(** X6: for every [u8] level, the line [AvrHandle::set_volume] queues on an open
    channel is read back by the AVR reader as [MasterVolume] of the level
    clamped to 98. *)
Theorem avr_set_volume_echo (h : AvrHandle) (level : Z) :
  avr_cmd_tx_open h = true -> (0 <= level <= 255)%Z ->
  exists line,
    send_raw h (AvrCmd.set_volume level) = ([line], Ok tt)
    /\ avr_read_line line = Some (MasterVolume (Z.min level 98)).
Proof.
  intros Ho Hl. unfold send_raw. rewrite Ho. eexists; split; [reflexivity|].
  assert (Hall : forallb (fun n =>
            match avr_read_line (AvrCmd.set_volume (Z.of_nat n) ++ String "013" EmptyString) with
            | Some (MasterVolume v) => Z.eqb v (Z.min (Z.of_nat n) 98)
            | _ => false
            end) (seq 0 256) = true) by (vm_compute; reflexivity).
  rewrite forallb_forall in Hall. specialize (Hall (Z.to_nat level)).
  rewrite in_seq, Z2Nat.id in Hall by lia. specialize (Hall ltac:(lia)).
  destruct (avr_read_line _) as [[]|]; try discriminate.
  apply Z.eqb_eq in Hall. now subst.
Qed.

Lemma avr_set_volume_echo_witness :
  avr_cmd_tx_open (mkAvrHandle true) = true /\ (0 <= 120 <= 255)%Z
  /\ exists line,
       send_raw (mkAvrHandle true) (AvrCmd.set_volume 120) = ([line], Ok tt)
       /\ avr_read_line line = Some (MasterVolume (Z.min 120 98)).
Proof.
  split; [reflexivity | split; [lia|]].
  exact (avr_set_volume_echo (mkAvrHandle true) 120 eq_refl ltac:(lia)).
Defined.

(** X7: [dialog_enhancer] sends one of PSDIL OFF, PSDIL 01 to PSDIL 06 for every
    non-negative level, and PSDIL OFF exactly for level 0. *)
Theorem avr_dialog_enhancer_clamp (level : Z) :
  (0 <= level)%Z ->
  In (AvrCmd.dialog_enhancer level)
     ["PSDIL OFF"; "PSDIL 01"; "PSDIL 02"; "PSDIL 03"; "PSDIL 04"; "PSDIL 05"; "PSDIL 06"]
  /\ (AvrCmd.dialog_enhancer level = "PSDIL OFF" <-> level = 0%Z).
Proof.
  intros Hl. unfold AvrCmd.dialog_enhancer.
  destruct (Z.eq_dec level 0) as [->|Hn].
  - split; [left; reflexivity | split; reflexivity].
  - assert (Hm : (Z.min level 6 = 1 \/ Z.min level 6 = 2 \/ Z.min level 6 = 3
                  \/ Z.min level 6 = 4 \/ Z.min level 6 = 5 \/ Z.min level 6 = 6)%Z) by lia.
    destruct Hm as [E|[E|[E|[E|[E|E]]]]]; rewrite E;
      (split; [vm_compute; repeat first [left; reflexivity | right]
              | split; [discriminate | intros; contradiction]]).
Qed.

Lemma avr_dialog_enhancer_clamp_witness :
  (0 <= 9)%Z
  /\ In (AvrCmd.dialog_enhancer 9)
       ["PSDIL OFF"; "PSDIL 01"; "PSDIL 02"; "PSDIL 03"; "PSDIL 04"; "PSDIL 05"; "PSDIL 06"]
  /\ (AvrCmd.dialog_enhancer 9 = "PSDIL OFF" <-> 9%Z = 0%Z).
Proof. split; [lia | exact (avr_dialog_enhancer_clamp 9 ltac:(lia))]. Defined.

(** X8: the AVR decoder reads the command of [set_input] back as [InputSource] of
    the same input, and that of [input_hdmi num] as HDMI followed by
    [min num 7]. *)
Theorem avr_set_input_echo (input : string) (num : Z) :
  avr_handle_response (AvrCmd.set_input input) = Some (InputSource input)
  /\ avr_handle_response (AvrCmd.input_hdmi num)
     = Some (InputSource ("HDMI" ++ z_to_string (Z.min num 7))).
Proof. split; [destruct input|]; reflexivity. Qed.

(** X9: once the AVR has reported a mute state, [avr_mute_toggle] on an open
    channel sends the one command that the decoder reads as the opposite
    state. *)
Theorem avr_mute_toggle_inverts (a : App) (avr : AvrHandle) (b : bool) :
  avr_handle a = Some avr -> avr_cmd_tx_open avr = true ->
  exists line,
    run_avr_action (handle_avr_event (Mute b) a) AvrMuteToggle = ([line], Ok tt)
    /\ avr_read_line line = Some (Mute (negb b)).
Proof.
  intros Ha Ho. unfold run_avr_action. cbv [handle_avr_event with_avr_state].
  cbn [avr_handle avr_state muted]. rewrite Ha. cbn [avr_action_commands avr_state muted].
  destruct b; cbn [send_raw_seq]; unfold send_raw; rewrite Ho;
    eexists; (split; [reflexivity | vm_compute; reflexivity]).
Qed.

Lemma avr_mute_toggle_inverts_witness :
  avr_handle (with_avr_handle sample_app (Some (mkAvrHandle true))) = Some (mkAvrHandle true)
  /\ avr_cmd_tx_open (mkAvrHandle true) = true
  /\ exists line,
       run_avr_action
         (handle_avr_event (Mute true) (with_avr_handle sample_app (Some (mkAvrHandle true))))
         AvrMuteToggle = ([line], Ok tt)
       /\ avr_read_line line = Some (Mute (negb true)).
Proof.
  split; [reflexivity | split; [reflexivity|]].
  exact (avr_mute_toggle_inverts (with_avr_handle sample_app (Some (mkAvrHandle true))) (mkAvrHandle true) true eq_refl eq_refl).
Defined.

(** X10: when the AVR command channel is closed, every AVR action of [App]
    queues nothing and fails with "AVR disconnected": none of them is a
    silent no-op. *)
Theorem avr_closed_channel (a : App) (avr : AvrHandle) (act : AvrAction) :
  avr_handle a = Some avr -> avr_cmd_tx_open avr = false ->
  run_avr_action a act = ([], Err "AVR disconnected").
Proof.
  intros Ha Hc. unfold run_avr_action. rewrite Ha.
  destruct act; unfold avr_action_commands, AvrCmd.query_status;
    try destruct (muted (avr_state a)); cbn [send_raw_seq]; unfold send_raw; rewrite Hc; reflexivity.
Qed.

Lemma avr_closed_channel_witness :
  avr_handle (with_avr_handle sample_app (Some (mkAvrHandle false))) = Some (mkAvrHandle false)
  /\ avr_cmd_tx_open (mkAvrHandle false) = false
  /\ run_avr_action (with_avr_handle sample_app (Some (mkAvrHandle false))) AvrQueryStatus
     = ([], Err "AVR disconnected").
Proof.
  split; [reflexivity | split; [reflexivity|]].
  exact (avr_closed_channel (with_avr_handle sample_app (Some (mkAvrHandle false))) (mkAvrHandle false) AvrQueryStatus eq_refl eq_refl).
Defined.

(** X11: when a player is selected but the HEOS command channel is closed, every
    player action of [App] queues nothing and fails with "Client
    disconnected". *)
Theorem player_actions_closed_channel (a : App) (h : HeosHandle) (pid : Z) (act : PlayerAction) :
  handle a = Some h -> cmd_tx_open h = false -> current_pid a = Some pid ->
  run_player_action a act = ([], Err "Client disconnected").
Proof.
  intros Hh Hc Hp. unfold run_player_action. rewrite Hh, Hp.
  cbn [send_seq]. unfold send. rewrite Hc. reflexivity.
Qed.

Lemma player_actions_closed_channel_witness :
  handle (with_handle sample_app (Some (mkHeosHandle false))) = Some (mkHeosHandle false)
  /\ cmd_tx_open (mkHeosHandle false) = false
  /\ current_pid (with_handle sample_app (Some (mkHeosHandle false))) = Some 1%Z
  /\ run_player_action (with_handle sample_app (Some (mkHeosHandle false))) CycleRepeat
     = ([], Err "Client disconnected").
Proof.
  split; [reflexivity | split; [reflexivity | split; [reflexivity|]]].
  exact (player_actions_closed_channel (with_handle sample_app (Some (mkHeosHandle false))) (mkHeosHandle false) 1 CycleRepeat
           eq_refl eq_refl eq_refl).
Defined.

(** X12: with an open channel and a selected player, every player action of
    [App] queues exactly one command, whose first parameter is the pid of
    the selected player. *)
Theorem player_actions_address_current (a : App) (h : HeosHandle) (pid : Z) (act : PlayerAction) :
  handle a = Some h -> cmd_tx_open h = true -> current_pid a = Some pid ->
  exists c, run_player_action a act = ([c], Ok tt)
            /\ hd_error (params c) = Some ("pid", z_to_string pid).
Proof.
  intros Hh Ho Hp. unfold run_player_action. rewrite Hh, Hp.
  cbn [send_seq]. unfold send. rewrite Ho. eexists; split; [reflexivity|].
  destruct act; cbn; try destruct (play_state (player_state a)); reflexivity.
Qed.

Lemma player_actions_address_current_witness :
  handle sample_app = Some (mkHeosHandle true)
  /\ cmd_tx_open (mkHeosHandle true) = true
  /\ current_pid sample_app = Some 1%Z
  /\ exists c, run_player_action sample_app VolumeUp = ([c], Ok tt)
               /\ hd_error (params c) = Some ("pid", z_to_string 1).
Proof.
  split; [reflexivity | split; [reflexivity | split; [reflexivity|]]].
  exact (player_actions_address_current sample_app (mkHeosHandle true) 1 VolumeUp
           eq_refl eq_refl eq_refl).
Defined.

(** X13: [handle_avr_event] never touches the HEOS side of the application: the
    connection state, players, selection, player state, HEOS handle,
    current view, queue and browse stack are left as they were. *)
Theorem avr_handle_event_heos_frame (e : AvrEvent) (a : App) :
  let a' := handle_avr_event e a in
  connection_state a' = connection_state a /\ players a' = players a
  /\ current_player_idx a' = current_player_idx a /\ player_state a' = player_state a
  /\ handle a' = handle a /\ current_view a' = current_view a
  /\ queue a' = queue a /\ browse_stack a' = browse_stack a.
Proof. destruct e; repeat split. Qed.

Section MessageFacts.

Lemma hm_get_filter (k k' : string) (m : HashMap) :
  k' <> k -> hm_get k (filter (fun p => negb (String.eqb (fst p) k')) m) = hm_get k m.
Proof.
  intros Hne. induction m as [|[k1 v1] m IH]; [reflexivity|].
  cbn [filter fst]. destruct (String.eqb_spec k1 k') as [->|Hk1].
  - cbn [negb]. rewrite IH. cbn [hm_get]. apply String.eqb_neq in Hne. now rewrite Hne.
  - cbn [negb hm_get]. now rewrite IH.
Qed.

Lemma hm_get_insert (k k' v : string) (m : HashMap) :
  hm_get k (hm_insert k' v m) = if String.eqb k' k then Some v else hm_get k m.
Proof.
  unfold hm_insert. cbn [hm_get]. destruct (String.eqb_spec k' k) as [_|Hne]; [reflexivity|].
  now apply hm_get_filter.
Qed.

Let step : HashMap -> string -> HashMap :=
  fun map pair =>
    match Str.split_once "=" pair with
    | Some (key, value) => hm_insert key value map
    | None => map
    end.

Lemma fold_params (k : string) (ps : list (string * string)) (m : HashMap) :
  forallb message_param_ok ps = true ->
  hm_get k (fold_left step (map param_string ps) m)
  = match assoc_last k ps with Some v => Some v | None => hm_get k m end.
Proof.
  revert m; induction ps as [|[k1 v1] ps IH]; intros m Hok; [reflexivity|].
  cbn [forallb message_param_ok] in Hok.
  apply andb_true_iff in Hok as [H1 Hps]; apply andb_true_iff in H1 as [H1 _];
    apply andb_true_iff in H1 as [Hk1 _].
  cbn [map fold_left]. rewrite IH by exact Hps.
  assert (Hs : step m (param_string (k1, v1)) = hm_insert k1 v1 m).
  { unfold step, param_string. change ("=" ++ v1) with (String "=" v1).
    now rewrite (split_once_sep "=" k1 v1 Hk1). }
  rewrite Hs, hm_get_insert. cbn [assoc_last].
  destruct (assoc_last k ps); [reflexivity|]. now destruct (String.eqb k1 k).
Qed.

Lemma params_excl_amp' (ps : list (string * string)) :
  forallb message_param_ok ps = true -> forallb (excludes "&") (map param_string ps) = true.
Proof.
  induction ps as [|[k v] ps IH]; cbn; [reflexivity|].
  intros H; apply andb_true_iff in H as [Hkv Hps].
  apply andb_true_iff in Hkv as [Hk Hv]; apply andb_true_iff in Hk as [_ Hk].
  rewrite excludes_app, Hk. cbn. rewrite Hv, IH by exact Hps. reflexivity.
Qed.

Lemma join_params_nonempty (p : string * string) (ps : list (string * string)) :
  String.eqb (Str.join "&" (map param_string (p :: ps))) "" = false.
Proof.
  apply String.eqb_neq. destruct p as [k v]. unfold Str.join. cbn [map].
  destruct ps; cbn [String.concat param_string]; destruct k; discriminate.
Qed.

(** Parsing the message undoes joining the parameters: each key finds the
    value of its last pair. *)
Lemma parse_message_join (ps : list (string * string)) (k : string) :
  forallb message_param_ok ps = true ->
  hm_get k (parse_message_string (Str.join "&" (map param_string ps))) = assoc_last k ps.
Proof.
  intros Hok. destruct ps as [|p ps']; [reflexivity|].
  unfold parse_message_string. rewrite join_params_nonempty.
  change "&" with (String "&" "").
  rewrite split_join by (discriminate || now apply params_excl_amp').
  change (fun map pair => _) with step.
  rewrite fold_params by exact Hok. now destruct (assoc_last k (p :: ps')).
Qed.

Lemma z_to_string_excl (z : Z) :
  excludes "&" (z_to_string z) = true /\ excludes "=" (z_to_string z) = true.
Proof.
  unfold z_to_string. destruct (Z.to_int z) as [u|u]; cbn [NilEmpty.string_of_int];
    [|cbn [excludes]];
    (induction u; cbn [NilEmpty.string_of_uint excludes]; [split; reflexivity | ..];
     try exact IHu).
Qed.

End MessageFacts.

(** X14: [parse_message_string] inverts the joining of [key=value] pairs with
    [&] when no key contains [=] or [&] and no value contains [&]: each key
    maps to the value of its last pair, and a key with no pair is absent. *)
Theorem parse_message_round_trip (ps : list (string * string)) (k : string) :
  forallb message_param_ok ps = true ->
  hm_get k (parse_message_string (Str.join "&" (map param_string ps))) = assoc_last k ps.
Proof. apply parse_message_join. Qed.

Ltac eval_contains :=
  repeat match goal with
         | |- context [Str.contains ?p ?s] =>
             let v := eval vm_compute in (Str.contains p s) in
             change (Str.contains p s) with v
         end.

Lemma set_play_mode_ack (a : App) (pid : Z) (r : RepeatMode) (s : ShuffleMode) :
  handle_response (ack (Protocol.set_play_mode pid (RepeatMode_as_str r) (ShuffleMode_as_str s))) a
  = update_player_state (update_player_state a (fun st => with_repeat st r))
      (fun st => with_shuffle st s).
Proof.
  unfold handle_response.
  change (is_success (ack _)) with true. cbn [negb].
  change (hdr_command (heos (ack _))) with "player/set_play_mode". cbv zeta.
  eval_contains. cbv beta iota.
  unfold parse_message. cbn [ack heos hdr_message].
  destruct (z_to_string_excl pid) as [Ha He].
  rewrite !parse_message_join
    by (cbn; rewrite Ha; destruct r, s; reflexivity).
  cbn. destruct r, s; reflexivity.
Qed.

Lemma parse_message_round_trip_witness :
  forallb message_param_ok [("pid", "1"); ("level", "10"); ("pid", "2")] = true
  /\ hm_get "pid" (parse_message_string
                    (Str.join "&" (map param_string [("pid", "1"); ("level", "10"); ("pid", "2")])))
     = assoc_last "pid" [("pid", "1"); ("level", "10"); ("pid", "2")].
Proof.
  split; [reflexivity|].
  exact (parse_message_round_trip [("pid", "1"); ("level", "10"); ("pid", "2")] "pid" eq_refl).
Defined.

Lemma set_play_state_ack (a : App) (pid : Z) (state : string) :
  handle_response (ack (Protocol.set_play_state pid state)) a = a.
Proof.
  unfold handle_response.
  change (is_success (ack _)) with true. cbn [negb].
  change (hdr_command (heos (ack _))) with "player/set_play_state". cbv zeta.
  eval_contains. reflexivity.
Qed.

(** X15: [cycle_repeat] queues one [player/set_play_mode] command carrying
    the pid, the successor of the repeat mode and the current shuffle mode;
    when the device acknowledges it by echoing its parameters, the
    reconciler moves the repeat mode to its successor and keeps the
    shuffle mode. *)
Theorem cycle_repeat_ack (a : App) (h : HeosHandle) (pid : Z) :
  handle a = Some h -> cmd_tx_open h = true -> current_pid a = Some pid ->
  exists c,
    run_player_action a CycleRepeat = ([c], Ok tt)
    /\ group c = "player" /\ command c = "set_play_mode"
    /\ params c = [("pid", z_to_string pid);
                   ("repeat", RepeatMode_as_str (RepeatMode_next (repeat (player_state a))));
                   ("shuffle", ShuffleMode_as_str (shuffle (player_state a)))]
    /\ repeat (player_state (handle_response (ack c) a)) = RepeatMode_next (repeat (player_state a))
    /\ shuffle (player_state (handle_response (ack c) a)) = shuffle (player_state a).
Proof.
  intros Hh Ho Hp. unfold run_player_action. rewrite Hh, Hp.
  cbn [send_seq]. unfold send. rewrite Ho. eexists; split; [reflexivity|].
  do 3 (split; [reflexivity|]).
  cbn [player_action_command]. rewrite set_play_mode_ack. split; reflexivity.
Qed.

Lemma cycle_repeat_ack_witness :
  handle sample_app = Some (mkHeosHandle true)
  /\ cmd_tx_open (mkHeosHandle true) = true
  /\ current_pid sample_app = Some 1%Z
  /\ exists c,
       run_player_action sample_app CycleRepeat = ([c], Ok tt)
       /\ group c = "player" /\ command c = "set_play_mode"
       /\ params c = [("pid", z_to_string 1);
                      ("repeat", RepeatMode_as_str (RepeatMode_next (repeat (player_state sample_app))));
                      ("shuffle", ShuffleMode_as_str (shuffle (player_state sample_app)))]
       /\ repeat (player_state (handle_response (ack c) sample_app))
          = RepeatMode_next (repeat (player_state sample_app))
       /\ shuffle (player_state (handle_response (ack c) sample_app))
          = shuffle (player_state sample_app).
Proof.
  split; [reflexivity | split; [reflexivity | split; [reflexivity|]]].
  exact (cycle_repeat_ack sample_app (mkHeosHandle true) 1 eq_refl eq_refl eq_refl).
Defined.

(** X16: [toggle_shuffle] queues one [player/set_play_mode] command
    carrying the pid, the current repeat mode and the flipped shuffle mode;
    when the device acknowledges it by echoing its parameters, the
    reconciler flips the shuffle mode and keeps the repeat mode. *)
Theorem toggle_shuffle_ack (a : App) (h : HeosHandle) (pid : Z) :
  handle a = Some h -> cmd_tx_open h = true -> current_pid a = Some pid ->
  exists c,
    run_player_action a ToggleShuffle = ([c], Ok tt)
    /\ group c = "player" /\ command c = "set_play_mode"
    /\ params c = [("pid", z_to_string pid);
                   ("repeat", RepeatMode_as_str (repeat (player_state a)));
                   ("shuffle", ShuffleMode_as_str (ShuffleMode_toggle (shuffle (player_state a))))]
    /\ shuffle (player_state (handle_response (ack c) a)) = ShuffleMode_toggle (shuffle (player_state a))
    /\ repeat (player_state (handle_response (ack c) a)) = repeat (player_state a).
Proof.
  intros Hh Ho Hp. unfold run_player_action. rewrite Hh, Hp.
  cbn [send_seq]. unfold send. rewrite Ho. eexists; split; [reflexivity|].
  do 3 (split; [reflexivity|]).
  cbn [player_action_command]. rewrite set_play_mode_ack. split; reflexivity.
Qed.

Lemma toggle_shuffle_ack_witness :
  handle sample_app = Some (mkHeosHandle true)
  /\ cmd_tx_open (mkHeosHandle true) = true
  /\ current_pid sample_app = Some 1%Z
  /\ exists c,
       run_player_action sample_app ToggleShuffle = ([c], Ok tt)
       /\ group c = "player" /\ command c = "set_play_mode"
       /\ params c = [("pid", z_to_string 1);
                      ("repeat", RepeatMode_as_str (repeat (player_state sample_app)));
                      ("shuffle", ShuffleMode_as_str (ShuffleMode_toggle (shuffle (player_state sample_app))))]
       /\ shuffle (player_state (handle_response (ack c) sample_app))
          = ShuffleMode_toggle (shuffle (player_state sample_app))
       /\ repeat (player_state (handle_response (ack c) sample_app))
          = repeat (player_state sample_app).
Proof.
  split; [reflexivity | split; [reflexivity | split; [reflexivity|]]].
  exact (toggle_shuffle_ack sample_app (mkHeosHandle true) 1 eq_refl eq_refl eq_refl).
Defined.

(** X17: [toggle_play_pause] queues one [player/set_play_state] command
    asking for pause when the player state is Play and for play otherwise;
    the device's acknowledgement of it leaves the whole application state
    unchanged. *)
Theorem toggle_play_pause_ack (a : App) (h : HeosHandle) (pid : Z) :
  handle a = Some h -> cmd_tx_open h = true -> current_pid a = Some pid ->
  exists c,
    run_player_action a TogglePlayPause = ([c], Ok tt)
    /\ group c = "player" /\ command c = "set_play_state"
    /\ params c = [("pid", z_to_string pid);
                   ("state", match play_state (player_state a) with
                             | Play => "pause"
                             | _ => "play"
                             end)]
    /\ handle_response (ack c) a = a.
Proof.
  intros Hh Ho Hp. unfold run_player_action. rewrite Hh, Hp.
  cbn [send_seq]. unfold send. rewrite Ho. eexists; split; [reflexivity|].
  cbn [player_action_command].
  destruct (play_state (player_state a));
    (split; [reflexivity | split; [reflexivity | split; [reflexivity | apply set_play_state_ack]]]).
Qed.

Lemma toggle_play_pause_ack_witness :
  handle sample_app = Some (mkHeosHandle true)
  /\ cmd_tx_open (mkHeosHandle true) = true
  /\ current_pid sample_app = Some 1%Z
  /\ exists c,
       run_player_action sample_app TogglePlayPause = ([c], Ok tt)
       /\ group c = "player" /\ command c = "set_play_state"
       /\ params c = [("pid", z_to_string 1);
                      ("state", match play_state (player_state sample_app) with
                                | Play => "pause"
                                | _ => "play"
                                end)]
       /\ handle_response (ack c) sample_app = sample_app.
Proof.
  split; [reflexivity | split; [reflexivity | split; [reflexivity|]]].
  exact (toggle_play_pause_ack sample_app (mkHeosHandle true) 1 eq_refl eq_refl eq_refl).
Defined.

(** X18: [HeosClient::handle_event] produces an event only for the seven event
    names it matches; an envelope with any other command is dropped. *)
Theorem client_event_names (r : HeosResponse) :
  client_handle_event r <> None -> In (hdr_command (heos r)) handled_event_names.
Proof.
  unfold client_handle_event. cbv zeta.
  repeat match goal with
         | |- context [String.eqb ?x ?y] => destruct (String.eqb_spec x y) as [->|]
         end; cbn [orb]; intros H; try (exfalso; now apply H);
    cbn [handled_event_names In]; tauto.
Qed.

Lemma client_event_names_witness :
  client_handle_event (mk_response "event/player_queue_changed" None "pid=1") <> None
  /\ In (hdr_command (heos (mk_response "event/player_queue_changed" None "pid=1")))
       handled_event_names.
Proof.
  assert (H : client_handle_event (mk_response "event/player_queue_changed" None "pid=1") <> None)
    by (intros Hc; vm_compute in Hc; discriminate Hc).
  split; [exact H | exact (client_event_names _ H)].
Defined.

(** X19: a [players_changed] event envelope is delivered as
    [PlayersChanged] with an empty list, which the reconciler ignores: the
    application state is unchanged. *)
Theorem players_changed_event_noop (r : HeosResponse) (a : App) :
  is_event r = true -> hdr_command (heos r) = "event/players_changed" ->
  client_dispatch r = Some (HeosEvent.PlayersChanged [])
  /\ handle_heos_event (HeosEvent.PlayersChanged []) a = a.
Proof.
  intros He Hc. unfold client_dispatch. rewrite He.
  unfold client_handle_event. rewrite Hc. cbv zeta. cbn.
  split; reflexivity.
Qed.

Lemma players_changed_event_noop_witness :
  is_event (mk_response "event/players_changed" None "") = true
  /\ hdr_command (heos (mk_response "event/players_changed" None "")) = "event/players_changed"
  /\ client_dispatch (mk_response "event/players_changed" None "")
     = Some (HeosEvent.PlayersChanged [])
  /\ handle_heos_event (HeosEvent.PlayersChanged []) sample_app = sample_app.
Proof.
  split; [reflexivity | split; [reflexivity|]].
  exact (players_changed_event_noop (mk_response "event/players_changed" None "") sample_app eq_refl eq_refl).
Defined.

(** X20: a [player_volume_changed] event whose level is missing or not a
    [u8] is delivered as [VolumeChanged] with level 0 and the pid of the
    message; when that pid is the selected player's, the reconciler then
    shows volume 0. *)
Theorem volume_event_bad_level (r : HeosResponse) (a : App) :
  is_event r = true -> hdr_command (heos r) = "event/player_volume_changed" ->
  match hm_get "level" (parse_message r) with Some s => parse_u8 s | None => None end = None ->
  exists mute,
    client_dispatch r = Some (HeosEvent.VolumeChanged (param_pid (parse_message r)) 0 mute)
    /\ (current_pid a = Some (param_pid (parse_message r)) ->
        volume (player_state (handle_heos_event
                  (HeosEvent.VolumeChanged (param_pid (parse_message r)) 0 mute) a)) = 0%Z).
Proof.
  intros He Hc Hl. unfold client_dispatch. rewrite He.
  unfold client_handle_event. rewrite Hc. cbv zeta. cbn [String.eqb Ascii.eqb Bool.eqb].
  unfold param_level at 1. rewrite Hl.
  eexists; split; [reflexivity|].
  intros Hp. cbn [handle_heos_event].
  rewrite (proj2 (is_current_pid_true a _) Hp). reflexivity.
Qed.

Lemma volume_event_bad_level_witness :
  is_event (mk_response "event/player_volume_changed" None "pid=1&level=300&mute=off") = true
  /\ hdr_command (heos (mk_response "event/player_volume_changed" None "pid=1&level=300&mute=off")) = "event/player_volume_changed"
  /\ match hm_get "level" (parse_message (mk_response "event/player_volume_changed" None "pid=1&level=300&mute=off")) with Some s => parse_u8 s | None => None end = None
  /\ exists mute,
       client_dispatch (mk_response "event/player_volume_changed" None "pid=1&level=300&mute=off") = Some (HeosEvent.VolumeChanged (param_pid (parse_message (mk_response "event/player_volume_changed" None "pid=1&level=300&mute=off"))) 0 mute)
       /\ (current_pid sample_app = Some (param_pid (parse_message (mk_response "event/player_volume_changed" None "pid=1&level=300&mute=off"))) ->
           volume (player_state (handle_heos_event
                     (HeosEvent.VolumeChanged (param_pid (parse_message (mk_response "event/player_volume_changed" None "pid=1&level=300&mute=off"))) 0 mute) sample_app))
           = 0%Z).
Proof.
  split; [reflexivity | split; [reflexivity | split; [vm_compute; reflexivity|]]].
  exact (volume_event_bad_level (mk_response "event/player_volume_changed" None "pid=1&level=300&mute=off") sample_app eq_refl eq_refl eq_refl).
Defined.

(** X21: a [repeat_mode_changed] or [shuffle_mode_changed] event for the selected
    player resets the shuffle mode to Off when it carries no shuffle
    parameter, and the repeat mode to Off when it carries no repeat
    parameter. *)
Theorem play_mode_event_defaults (r : HeosResponse) (a : App) :
  is_event r = true ->
  (hdr_command (heos r) = "event/repeat_mode_changed"
   \/ hdr_command (heos r) = "event/shuffle_mode_changed") ->
  is_current_pid a (param_pid (parse_message r)) = true ->
  exists e, client_dispatch r = Some e
    /\ (hm_get "shuffle" (parse_message r) = None ->
        shuffle (player_state (handle_heos_event e a)) = ShuffleOff)
    /\ (hm_get "repeat" (parse_message r) = None ->
        repeat (player_state (handle_heos_event e a)) = RepeatOff).
Proof.
  intros He Hc Hp. unfold client_dispatch. rewrite He.
  unfold client_handle_event. cbv zeta.
  destruct Hc as [Hc|Hc]; rewrite Hc; cbn [String.eqb Ascii.eqb Bool.eqb orb];
    (eexists; split; [reflexivity|]);
    cbn [handle_heos_event]; rewrite Hp;
    (split; intros Hn; rewrite Hn; reflexivity).
Qed.

Lemma play_mode_event_defaults_witness :
  is_event (mk_response "event/repeat_mode_changed" None "pid=1&repeat=on_all") = true
  /\ (hdr_command (heos (mk_response "event/repeat_mode_changed" None "pid=1&repeat=on_all"))
      = "event/repeat_mode_changed"
      \/ hdr_command (heos (mk_response "event/repeat_mode_changed" None "pid=1&repeat=on_all"))
         = "event/shuffle_mode_changed")
  /\ is_current_pid sample_app
       (param_pid (parse_message (mk_response "event/repeat_mode_changed" None "pid=1&repeat=on_all")))
     = true
  /\ exists e,
       client_dispatch (mk_response "event/repeat_mode_changed" None "pid=1&repeat=on_all") = Some e
       /\ (hm_get "shuffle"
             (parse_message (mk_response "event/repeat_mode_changed" None "pid=1&repeat=on_all"))
           = None ->
           shuffle (player_state (handle_heos_event e sample_app)) = ShuffleOff)
       /\ (hm_get "repeat"
             (parse_message (mk_response "event/repeat_mode_changed" None "pid=1&repeat=on_all"))
           = None ->
           repeat (player_state (handle_heos_event e sample_app)) = RepeatOff).
Proof.
  split; [reflexivity | split; [left; reflexivity | split; [vm_compute; reflexivity|]]].
  exact (play_mode_event_defaults (mk_response "event/repeat_mode_changed" None "pid=1&repeat=on_all") sample_app eq_refl (or_introl eq_refl) eq_refl).
Defined.

(** X22: an event envelope whose pid is missing or not an [i64] is
    delivered with pid 0 (a [players_changed] event carries no pid), so it
    leaves the application state unchanged unless the selected player's
    pid is 0. *)
Theorem event_without_pid_noop (r : HeosResponse) (a : App) (e : HeosEvent.t) :
  is_event r = true ->
  match hm_get "pid" (parse_message r) with Some s => parse_i64 s | None => None end = None ->
  client_dispatch r = Some e ->
  (heos_event_pid e = Some 0%Z \/ e = HeosEvent.PlayersChanged [])
  /\ (current_pid a <> Some 0%Z -> handle_heos_event e a = a).
Proof.
  intros He Hpid Hd. unfold client_dispatch in Hd. rewrite He in Hd.
  assert (H0 : param_pid (parse_message r) = 0%Z) by (unfold param_pid; now rewrite Hpid).
  unfold client_handle_event in Hd. cbv zeta in Hd. rewrite H0 in Hd.
  repeat match type of Hd with
         | context [String.eqb ?x ?y] => destruct (String.eqb x y)
         end; cbn [orb] in Hd; try discriminate Hd; injection Hd as <-;
    (split; [first [left; reflexivity | right; reflexivity] | intros Hne]);
    first [reflexivity | apply (event_other_pid_noop _ a 0%Z); [reflexivity | exact Hne]].
Qed.

Lemma event_without_pid_noop_witness :
  is_event (mk_response "event/player_volume_changed" None "level=10") = true
  /\ match hm_get "pid" (parse_message (mk_response "event/player_volume_changed" None "level=10")) with Some s => parse_i64 s | None => None end = None
  /\ client_dispatch (mk_response "event/player_volume_changed" None "level=10") = Some (HeosEvent.VolumeChanged 0 10 MuteOff)
  /\ (heos_event_pid (HeosEvent.VolumeChanged 0 10 MuteOff) = Some 0%Z
      \/ HeosEvent.VolumeChanged 0 10 MuteOff = HeosEvent.PlayersChanged [])
  /\ (current_pid sample_app <> Some 0%Z ->
      handle_heos_event (HeosEvent.VolumeChanged 0 10 MuteOff) sample_app = sample_app).
Proof.
  assert (Hd : client_dispatch (mk_response "event/player_volume_changed" None "level=10") = Some (HeosEvent.VolumeChanged 0 10 MuteOff))
    by (vm_compute; reflexivity).
  split; [reflexivity | split; [vm_compute; reflexivity | split; [exact Hd|]]].
  exact (event_without_pid_noop (mk_response "event/player_volume_changed" None "level=10") sample_app (HeosEvent.VolumeChanged 0 10 MuteOff)
           eq_refl eq_refl Hd).
Defined.

Section Navigation.

Lemma go_back_main_fixed (k : nat) (a : App) :
  current_view a = Main -> Nat.iter k go_back a = a.
Proof.
  intros Hm. induction k as [|k IH]; [reflexivity|].
  rewrite Nat.iter_succ, IH. unfold go_back. now rewrite Hm.
Qed.

Lemma removelast_length {A} (l : list A) :
  length (removelast l) = pred (length l).
Proof.
  induction l as [|x l IH]; [reflexivity|].
  destruct l as [|y l]; [reflexivity|].
  change (removelast (x :: y :: l)) with (x :: removelast (y :: l)).
  cbn [length] in *. rewrite IH. reflexivity.
Qed.

Lemma go_back_cases (a : App) :
  current_view (go_back a) = Main
  \/ (browse_stack a <> [] /\ current_view (go_back a) = Browse
      /\ length (browse_stack (go_back a)) = pred (length (browse_stack a))).
Proof.
  unfold go_back. destruct (current_view a) eqn:Hv; try (left; reflexivity).
  - left; exact Hv.
  - destruct (browse_stack a) as [|x l] eqn:Hs; [left; reflexivity|].
    right. split; [discriminate|]. cbn [current_view browse_stack with_browse_stack].
    split; [exact Hv|]. rewrite removelast_length. reflexivity.
Qed.

End Navigation.

(** X23: pressing Back [length browse_stack + 1] times brings the application to
    the Main view from any state. *)
Theorem go_back_reaches_main (a : App) :
  current_view (Nat.iter (S (length (browse_stack a))) go_back a) = Main.
Proof.
  remember (length (browse_stack a)) as n eqn:Hn. revert a Hn.
  induction n as [|n IH]; intros a Hn; rewrite Nat.iter_succ_r;
    destruct (go_back_cases a) as [Hm | [Hne [Hb Hl]]];
    try (rewrite go_back_main_fixed by exact Hm; exact Hm).
  - destruct (browse_stack a); [congruence | discriminate].
  - apply IH. rewrite Hl, <- Hn. reflexivity.
Qed.

(** X24: after [show_view v] for any view other than Browse, one [go_back] lands
    on Main, not on the view that was shown before ([previous_view] is
    never read). *)
Theorem show_view_then_back (v : View) (a : App) :
  v <> Browse -> current_view (go_back (show_view v a)) = Main.
Proof.
  intros Hv. unfold show_view.
  destruct (current_view a) eqn:E, v; cbn [View_beq negb];
    try (exfalso; now apply Hv);
    unfold go_back; rewrite ?E; cbn [current_view with_current_view with_previous_view];
    rewrite ?E; reflexivity.
Qed.

Lemma show_view_then_back_witness :
  Help <> Browse
  /\ current_view (go_back (show_view Help (with_current_view sample_app Queue))) = Main.
Proof.
  split; [discriminate|].
  exact (show_view_then_back Help (with_current_view sample_app Queue) ltac:(discriminate)).
Defined.

Section Discovery2.

Lemma recv_loop_prefix (devices : list DiscoveredDevice) (rs : list RecvOutcome) :
  exists suffix, recv_loop devices rs = (devices ++ suffix)%list.
Proof.
  revert devices; induction rs as [|r rs IH]; intros devices.
  - exists []. now rewrite app_nil_r.
  - destruct r as [bytes src| |]; cbn [recv_loop]; try (exists []; now rewrite app_nil_r).
    cbv zeta.
    destruct (is_heos (Str.take recv_buf_len bytes)); [|apply IH].
    destruct (existsb _ devices); [apply IH|].
    match goal with
    | |- exists suffix, recv_loop (devices ++ [?d])%list rs = _ =>
        destruct (IH (devices ++ [d])%list) as [suf Hs]; rewrite Hs;
        exists (d :: suf); now rewrite <- app_assoc
    end.
Qed.

End Discovery2.

(** X25: the SSDP receive loop only appends: the devices found so far stay, in
    order and unchanged, so the first datagram from an address fixes its
    entry. *)
Theorem discovery_keeps_found (devices : list DiscoveredDevice) (rs : list RecvOutcome) :
  exists suffix, recv_loop devices rs = (devices ++ suffix)%list.
Proof. apply recv_loop_prefix. Qed.


